(** * The password decoding routines of backend/src/routes/tools.js

    A shallow embedding of [decryptCiscoType7], [decryptJuniperType9],
    [decodeBase64], [checkMD5Hash] and of the [switch] of the
    password-decrypt route that selects among them, with the part of the
    JavaScript runtime they rely on; then of the handler of that route, of
    [analyzePasswordStrength], [analyzeHashType], [getNetworkClass] and
    [calculateSubnet] of the same file. *)

From Stdlib Require Import String Ascii ZArith List Bool Lia DecimalString.
Import ListNotations.
Local Open Scope Z_scope.

(** ** The JavaScript runtime, as far as the decoders use it *)

Module JS.

(** A string is its sequence of UTF-16 code units. *)
Definition jsstring : Type := list Z.

Definition code (a : ascii) : Z := Z.of_nat (nat_of_ascii a).

(** A string literal of the source. *)
Definition str (s : string) : jsstring := map code (list_ascii_of_string s).

Definition len (s : jsstring) : Z := Z.of_nat (length s).

Fixpoint string_eqb (a b : jsstring) : bool :=
  match a, b with
  | [], [] => true
  | x :: a', y :: b' => (x =? y) && string_eqb a' b'
  | _, _ => false
  end.

(** Numbers: the decoders only ever compute with small integers and NaN. *)
Inductive number : Type :=
| Num (z : Z)
| NaN.

Definition num_add (a b : number) : number :=
  match a, b with
  | Num x, Num y => Num (x + y)
  | _, _ => NaN
  end.

Definition num_mul (a b : number) : number :=
  match a, b with
  | Num x, Num y => Num (x * y)
  | _, _ => NaN
  end.

(** [a % b]: the remainder takes the sign of the dividend. *)
Definition num_rem (a b : number) : number :=
  match a, b with
  | Num x, Num y => if y =? 0 then NaN else Num (Z.rem x y)
  | _, _ => NaN
  end.

(** ToIntegerOrInfinity, ToInt32 and ToUint16 of the language. *)
Definition toInteger (n : number) : Z :=
  match n with
  | Num z => z
  | NaN => 0
  end.

Definition toInt32 (n : number) : Z :=
  match n with
  | Num z => (z + 2 ^ 31) mod 2 ^ 32 - 2 ^ 31
  | NaN => 0
  end.

Definition toUint16 (n : number) : Z :=
  match n with
  | Num z => z mod 2 ^ 16
  | NaN => 0
  end.

(** [a ^ b] *)
Definition num_xor (a b : number) : number :=
  Num (Z.lxor (toInt32 a) (toInt32 b)).

(** [String.fromCharCode(n)] *)
Definition fromCharCode (n : number) : jsstring := [toUint16 n].

Definition clamp (length z : Z) : Z := Z.max 0 (Z.min z length).

(** [s.substring(start, end)]: both ends are clamped to the string and
    swapped when they come in the wrong order. *)
Definition substring (s : jsstring) (start end_ : number) : jsstring :=
  let a := clamp (len s) (toInteger start) in
  let b := clamp (len s) (toInteger end_) in
  let from := Z.min a b in
  let to := Z.max a b in
  firstn (Z.to_nat (to - from)) (skipn (Z.to_nat from) s).

(** [s.substring(start)] *)
Definition substring_from (s : jsstring) (start : number) : jsstring :=
  substring s start (Num (len s)).

(** [s.charAt(pos)]: a string of one code unit, or the empty string. *)
Definition charAt (s : jsstring) (pos : number) : jsstring :=
  let p := toInteger pos in
  if (0 <=? p) && (p <? len s) then [nth (Z.to_nat p) s 0] else [].

(** [s.charCodeAt(pos)]: NaN outside the string. *)
Definition charCodeAt (s : jsstring) (pos : number) : number :=
  let p := toInteger pos in
  if (0 <=? p) && (p <? len s) then Num (nth (Z.to_nat p) s 0) else NaN.

(** [s.startsWith(search)] *)
Fixpoint startsWith (s search : jsstring) : bool :=
  match search, s with
  | [], _ => true
  | x :: search', y :: s' => (x =? y) && startsWith s' search'
  | _ :: _, [] => false
  end.

Fixpoint indexOf_from (s search : jsstring) (p : Z) : Z :=
  if startsWith s search then p
  else match s with
       | [] => -1
       | _ :: s' => indexOf_from s' search (p + 1)
       end.

(** [s.indexOf(search)]: the first position where [search] occurs, or -1. *)
Definition indexOf (s search : jsstring) : Z := indexOf_from s search 0.

(** [s.split(separator)] for a non-empty separator: [skip] counts the code
    units of a separator just matched that are still to be passed over,
    [cur] holds the current piece in reverse. *)
Fixpoint split_go (separator : jsstring) (skip : nat) (cur s : jsstring)
  : list jsstring :=
  match skip with
  | S k => match s with
           | [] => [rev cur]
           | _ :: s' => split_go separator k cur s'
           end
  | O => match s with
         | [] => [rev cur]
         | c :: s' =>
             if startsWith s separator
             then rev cur :: split_go separator (length separator - 1) [] s'
             else split_go separator O (c :: cur) s'
         end
  end.

Definition split (s separator : jsstring) : list jsstring :=
  split_go separator O [] s.

(** [s.toLowerCase()] on the ASCII letters; the decoders' tables hold ASCII
    only, and code units beyond ASCII are kept as they are. *)
Definition lower_unit (c : Z) : Z :=
  if (65 <=? c) && (c <=? 90) then c + 32 else c.

Definition toLowerCase (s : jsstring) : jsstring := map lower_unit s.

(** The white space and line terminators that [parseInt] passes over. *)
Definition is_white_space (c : Z) : bool :=
  existsb (Z.eqb c)
    [9; 10; 11; 12; 13; 32; 160; 5760; 8232; 8233; 8239; 8287; 12288; 65279]
  || ((8192 <=? c) && (c <=? 8202)).

Fixpoint trim_start (s : jsstring) : jsstring :=
  match s with
  | c :: s' => if is_white_space c then trim_start s' else s
  | [] => []
  end.

Definition digit_value (c : Z) : option Z :=
  if (48 <=? c) && (c <=? 57) then Some (c - 48)
  else if (97 <=? c) && (c <=? 122) then Some (c - 87)
  else if (65 <=? c) && (c <=? 90) then Some (c - 55)
  else None.

Definition radix_digit (radix c : Z) : option Z :=
  match digit_value c with
  | Some d => if d <? radix then Some d else None
  | None => None
  end.

(** The longest prefix of digits of the radix, read as a numeral; [acc] is
    [None] as long as no digit has been read. *)
Fixpoint parse_digits (radix : Z) (acc : option Z) (s : jsstring) : option Z :=
  match s with
  | [] => acc
  | c :: s' =>
      match radix_digit radix c with
      | Some d =>
          parse_digits radix
            (Some (match acc with Some a => a * radix + d | None => d end)) s'
      | None => acc
      end
  end.

(** [parseInt(s, radix)] for a radix between 2 and 36. The decoders call it
    on at most two characters, where the result is exact. *)
Definition parseInt (s : jsstring) (radix : Z) : number :=
  let s1 := trim_start s in
  let '(sign, s2) :=
    match s1 with
    | 45 :: t => (-1, t)
    | 43 :: t => (1, t)
    | _ => (1, s1)
    end in
  let s3 :=
    if radix =? 16
    then match s2 with
         | 48 :: 120 :: t => t
         | 48 :: 88 :: t => t
         | _ => s2
         end
    else s2 in
  match parse_digits radix None s3 with
  | Some v => Num (sign * v)
  | None => NaN
  end.

(** Values that a property of the objects in the decoders can hold. *)
Inductive value : Type :=
| VUndefined
| VNumber (z : Z)
| VString (s : jsstring)
| VFunction (name : jsstring)
| VObjectPrototype.

(** An object literal: its own properties, the latest assignment first. *)
Definition object : Type := list (jsstring * value).

Fixpoint own_property (o : object) (k : jsstring) : option value :=
  match o with
  | [] => None
  | (k', v) :: o' => if string_eqb k' k then Some v else own_property o' k
  end.

Definition set_property (o : object) (k : jsstring) (v : value) : object :=
  (k, v) :: o.

(** What a plain object inherits from [Object.prototype]. *)
Definition prototype_methods : list jsstring :=
  map str
    ["constructor"; "hasOwnProperty"; "isPrototypeOf"; "propertyIsEnumerable";
     "toLocaleString"; "toString"; "valueOf"; "__defineGetter__";
     "__defineSetter__"; "__lookupGetter__"; "__lookupSetter__"]%string.

Definition inherited_property (k : jsstring) : value :=
  if existsb (string_eqb k) prototype_methods then VFunction k
  else if string_eqb k (str "__proto__") then VObjectPrototype
  else VUndefined.

(** [o[k]]: an own property, else one found along the prototype chain. *)
Definition get_property (o : object) (k : jsstring) : value :=
  match own_property o k with
  | Some v => v
  | None => inherited_property k
  end.

(** ToBoolean *)
Definition truthy (v : value) : bool :=
  match v with
  | VUndefined => false
  | VNumber z => negb (z =? 0)
  | VString s => negb (string_eqb s [])
  | VFunction _ => true
  | VObjectPrototype => true
  end.

(** [v + 1] as the argument of [substring]: a number plus one, NaN for
    [undefined] and for the strings that the other values concatenate to. *)
Definition plus_one (v : value) : number :=
  match v with
  | VNumber z => Num (z + 1)
  | _ => NaN
  end.

(** How the evaluation of a block ends: with a value, with an exception
    carrying its message, or, for a loop run with an iteration budget,
    without having reached its exit. *)
Inductive outcome (A : Type) : Type :=
| Done (a : A)
| Raised (error_message : jsstring)
| Unfinished.

Arguments Done {A} a.
Arguments Raised {A} error_message.
Arguments Unfinished {A}.

Definition bind {A B : Type} (m : outcome A) (f : A -> outcome B) : outcome B :=
  match m with
  | Done a => f a
  | Raised e => Raised e
  | Unfinished => Unfinished
  end.

(** [try { body } catch (error) { handler }] *)
Definition try_catch {A : Type} (body : outcome A)
  (handler : jsstring -> outcome A) : outcome A :=
  match body with
  | Raised e => handler e
  | other => other
  end.

End JS.

Export JS.

Declare Scope js_scope.
Notation "x <- m ;; k" := (bind m (fun x => k))
  (at level 61, m at next level, right associativity) : js_scope.
Local Open Scope js_scope.

(** ** The decoders *)

(** The objects the decoders return: [{ success, decrypted }] or
    [{ success, message }]; an absent property is [None]. *)
Record DecodeResult : Type := mkResult {
  success : bool;
  decrypted : option value;
  message : option jsstring
}.

(** [{ success: true, decrypted }] *)
Definition succeeded (v : value) : DecodeResult := mkResult true (Some v) None.

(** [{ success: false, message }] *)
Definition failed (m : jsstring) : DecodeResult := mkResult false None (Some m).

(** The test of [/^[0-9A-Fa-f]+$/]. *)
Definition is_hex_digit (c : Z) : bool :=
  ((48 <=? c) && (c <=? 57)) || ((65 <=? c) && (c <=? 70))
  || ((97 <=? c) && (c <=? 102)).

Definition hex_test (s : jsstring) : bool :=
  match s with
  | [] => false
  | _ :: _ => forallb is_hex_digit s
  end.

Definition key : jsstring :=
  str "dsfd;kfoA,.iyewrkldJKDHSUBsgvca69834ncxv9873254k;fg87".

(** The [for (let i = 2; i < encrypted.length; i += 2)] loop of
    [decryptCiscoType7]; [i] is even throughout, so [i / 2] is exact. *)
Fixpoint cisco_for (budget : nat) (encrypted : jsstring) (salt : number)
  (i : Z) (decrypted : jsstring) : outcome jsstring :=
  match budget with
  | O => if i <? len encrypted then Unfinished else Done decrypted
  | S budget' =>
      if i <? len encrypted then
        let hexPair := substring encrypted (Num i) (Num (i + 2)) in
        let decimal := parseInt hexPair 16 in
        let keyIndex :=
          num_rem (num_add (Num (i / 2 - 1)) salt) (Num (len key)) in
        let keyChar := charCodeAt key keyIndex in
        let decryptedChar := fromCharCode (num_xor decimal keyChar) in
        cisco_for budget' encrypted salt (i + 2) (decrypted ++ decryptedChar)
      else Done decrypted
  end.

Definition decryptCiscoType7 (encrypted : jsstring) : outcome DecodeResult :=
  if negb (hex_test encrypted) then
    Done (failed (str "Invalid Cisco Type 7 format"))
  else
    try_catch
      (let salt := parseInt (substring encrypted (Num 0) (Num 2)) 10 in
       decrypted <- cisco_for (length encrypted) encrypted salt 2 [] ;;
       Done (succeeded (VString decrypted)))
      (fun error_message =>
         Done (failed (str "Decryption failed: " ++ error_message))).

(** The tables of [decryptJuniperType9]. *)
Definition JUNIPER_ENCODING : list (list Z) :=
  [[1; 4; 32]; [1; 16; 32]; [1; 8; 32]; [1; 64]; [1; 32]; [1; 4; 16; 128];
   [1; 32; 64]].

Definition JUNIPER_KEYS : list jsstring :=
  map str
    ["QzF3n6/9CAtpu0O"; "B1IREhcSyrleKvMW8LXx"; "7N-dVbwsY2g4oaJZGUDj";
     "iHkq.mPf5T"]%string.

(** [JUNIPER_KEYS.join("")] *)
Definition JUNIPER_KEYS_STRING : jsstring := concat JUNIPER_KEYS.

Definition JUNIPER_KEYS_LENGTH : Z := len JUNIPER_KEYS_STRING.

(** The two nested loops that fill [JUNIPER_CHARACTER_KEYS]: every character
    of the key of index [idx] is assigned [3 - idx]. *)
Fixpoint character_keys_inner (junKey : jsstring) (idx : Z) (o : object)
  : object :=
  match junKey with
  | [] => o
  | character :: rest =>
      character_keys_inner rest idx
        (set_property o [character] (VNumber (3 - idx)))
  end.

Fixpoint character_keys_outer (keys : list jsstring) (idx : Z) (o : object)
  : object :=
  match keys with
  | [] => o
  | junKey :: rest =>
      character_keys_outer rest (idx + 1) (character_keys_inner junKey idx o)
  end.

Definition JUNIPER_CHARACTER_KEYS : object :=
  character_keys_outer JUNIPER_KEYS 0 [].

(** [decode[index]] as a number: [undefined] multiplies to NaN. *)
Definition weight_at (decode : list Z) (index : nat) : number :=
  match nth_error decode index with
  | Some w => Num w
  | None => NaN
  end.

(** The inner [for] loop over the characters of a nibble; it returns the
    value accumulated and the previous character it ends with. *)
Fixpoint nibble_for (nibble : jsstring) (decode : list Z) (index : nat)
  (previousChar : jsstring) (value : number) : number * jsstring :=
  match nibble with
  | [] => (value, previousChar)
  | c :: rest =>
      let char := [c] in
      let prevCharIndex := indexOf JUNIPER_KEYS_STRING previousChar in
      let charIndex := indexOf JUNIPER_KEYS_STRING char in
      let gap := charIndex - prevCharIndex in
      let gap :=
        Z.rem (Z.rem gap JUNIPER_KEYS_LENGTH + JUNIPER_KEYS_LENGTH)
          JUNIPER_KEYS_LENGTH in
      let gap := gap - 1 in
      nibble_for rest decode (S index) char
        (num_add value (num_mul (Num gap) (weight_at decode index)))
  end.

(** The [while (strippedPasswordCharacters.length > 0)] loop. *)
Fixpoint juniper_while (budget : nat)
  (strippedPasswordCharacters previousChar decryptedPassword : jsstring)
  : outcome jsstring :=
  if 0 <? len strippedPasswordCharacters then
    match budget with
    | O => Unfinished
    | S budget' =>
        match nth_error JUNIPER_ENCODING
                (Z.to_nat (Z.rem (len decryptedPassword)
                             (Z.of_nat (length JUNIPER_ENCODING)))) with
        | None =>
            Raised (str "Cannot read properties of undefined (reading 'length')")
        | Some decode =>
            let decode_length := Z.of_nat (length decode) in
            let nibble :=
              substring strippedPasswordCharacters (Num 0) (Num decode_length) in
            let strippedPasswordCharacters :=
              substring_from strippedPasswordCharacters (Num decode_length) in
            let '(value, previousChar) :=
              nibble_for nibble decode 0 previousChar (Num 0) in
            juniper_while budget' strippedPasswordCharacters previousChar
              (decryptedPassword ++ fromCharCode value)
        end
    end
  else Done decryptedPassword.

Definition decryptJuniperType9 (encryptedPassword : jsstring)
  : outcome DecodeResult :=
  if negb (startsWith encryptedPassword (str "$9$")) then
    Done (failed (str "Not a valid Juniper Type 9 password"))
  else
    try_catch
      (match nth_error (split encryptedPassword (str "$9$")) 1 with
       | None =>
           Raised (str "Cannot read properties of undefined (reading 'charAt')")
       | Some passwordCharacters =>
           let firstCharacter := charAt passwordCharacters (Num 0) in
           let skipChars :=
             plus_one (get_property JUNIPER_CHARACTER_KEYS firstCharacter) in
           let strippedPasswordCharacters :=
             substring_from passwordCharacters skipChars in
           decryptedPassword <-
             juniper_while (length strippedPasswordCharacters)
               strippedPasswordCharacters firstCharacter [] ;;
           Done (succeeded (VString decryptedPassword))
       end)
      (fun error_message =>
         Done (failed (str "Decryption failed: " ++ error_message))).

(** [checkMD5Hash] *)
Definition knownHashes : object :=
  [(str "5f4dcc3b5aa765d61d8327deb882cf99", VString (str "password"));
   (str "e10adc3949ba59abbe56e057f20f883e", VString (str "123456"));
   (str "25d55ad283aa400af464c76d713c07ad", VString (str "12345678"));
   (str "5eb63bbbe01eeed093cb22bb8f5acdc3", VString (str "hello"));
   (str "098f6bcd4621d373cade4e832627b4f6", VString (str "test"));
   (str "827ccb0eea8a706c4c34a16891f84e7b", VString (str "12345"))].

Definition checkMD5Hash (hash : jsstring) : outcome DecodeResult :=
  if truthy (get_property knownHashes (toLowerCase hash)) then
    Done (succeeded (get_property knownHashes (toLowerCase hash)))
  else
    Done (failed (str "Hash not found in known passwords database")).

Section Dispatch.

(** [Buffer.from(encoded, 'base64').toString('utf8')] belongs to the
    platform: it returns the text it read, or raises an error, of which the
    message is kept. (Node raises on no string: its Base64 reader passes over
    the characters outside its alphabet and stops at the first padding
    character, and its UTF-8 reader replaces malformed sequences.) *)
Variable Buffer_from_base64_toString_utf8 : jsstring -> jsstring + jsstring.

Definition decodeBase64 (encoded : jsstring) : outcome DecodeResult :=
  try_catch
    (decoded <- match Buffer_from_base64_toString_utf8 encoded with
                | inl text => Done text
                | inr error_message => Raised error_message
                end ;;
     Done (succeeded (VString decoded)))
    (fun _ => Done (failed (str "Invalid Base64 format"))).

(** The [switch (vendorType)] of the password-decrypt route. *)
Definition password_decrypt_switch (vendorType encryptedPassword : jsstring)
  : outcome DecodeResult :=
  if string_eqb vendorType (str "cisco-type7") then
    decryptCiscoType7 encryptedPassword
  else if string_eqb vendorType (str "juniper-type9") then
    decryptJuniperType9 encryptedPassword
  else if string_eqb vendorType (str "base64") then
    decodeBase64 encryptedPassword
  else if string_eqb vendorType (str "generic-md5") then
    checkMD5Hash encryptedPassword
  else
    Done (failed (str "Unsupported encryption type")).

End Dispatch.

(** ** The route of the password decrypt tool *)

(** What [logToolUsage] is given of the outcome: the success flag and the
    error message, [None] for [null]. The address, the agent, the request
    body and the time that it also records play no part in the answer. *)
Record UsageLog : Type := mkLog {
  logged_success : bool;
  logged_error : option jsstring
}.

(** The [data] of the answer of the route; a [decryptedPassword] of [None]
    is [null]. *)
Record DecryptData : Type := mkData {
  data_encryptedPassword : jsstring;
  data_decryptedPassword : option value;
  data_vendorType : jsstring;
  data_message : jsstring
}.

Inductive Response : Type :=
| BadRequest (error : jsstring)
| Answer (answer_success : bool) (data : DecryptData)
| ServerError (error error_message : jsstring).

(** [!field] for a field of the request body that is absent or a string. *)
Definition missing (field : option jsstring) : bool :=
  match field with
  | None => true
  | Some [] => true
  | Some (_ :: _) => false
  end.

(** [result.decrypted || null] *)
Definition decrypted_or_null (d : option value) : option value :=
  match d with
  | Some v => if truthy v then Some v else None
  | None => None
  end.

(** [result.message || 'Decryption successful'] *)
Definition message_or_default (m : option jsstring) : jsstring :=
  match m with
  | Some (c :: m') => c :: m'
  | _ => str "Decryption successful"
  end.

Section Route.

Variable Buffer_from_base64_toString_utf8 : jsstring -> jsstring + jsstring.

(** The handler of [router.post('/password-decrypt', ...)], on a request
    body whose two fields are absent or strings: what it logs and what it
    answers. *)
Definition password_decrypt_route (encryptedPassword vendorType : option jsstring)
  : outcome (UsageLog * Response) :=
  try_catch
    (match encryptedPassword with
     | None | Some [] =>
         Done (mkLog false (Some (str "Missing encrypted password")),
               BadRequest (str "Encrypted password is required"))
     | Some ((_ :: _) as encryptedPassword) =>
         match vendorType with
         | None | Some [] =>
             Done (mkLog false (Some (str "Missing vendor type")),
                   BadRequest (str "Vendor/encryption type is required"))
         | Some ((_ :: _) as vendorType) =>
             result <- password_decrypt_switch
                         Buffer_from_base64_toString_utf8
                         vendorType encryptedPassword ;;
             Done (mkLog (success result)
                     (if success result then None else message result),
                   Answer (success result)
                     (mkData encryptedPassword
                        (decrypted_or_null (decrypted result))
                        vendorType
                        (message_or_default (message result))))
         end
     end)
    (fun error_message =>
       Done (mkLog false (Some error_message),
             ServerError (str "Password decryption failed") error_message)).

End Route.

(** ** The analysis of passwords and hashes *)

(** The tests of [/[a-z]/], [/[A-Z]/], [/\d/] and of the class of special
    characters. *)
Definition is_lower (c : Z) : bool := (97 <=? c) && (c <=? 122).

Definition is_upper (c : Z) : bool := (65 <=? c) && (c <=? 90).

Definition is_digit (c : Z) : bool := (48 <=? c) && (c <=? 57).

Definition special_characters : jsstring :=
  str "!@#$%^&*(),.?" ++ [34] ++ str ":{}|<>".

Definition is_special (c : Z) : bool := existsb (Z.eqb c) special_characters.

Record PasswordStrength : Type := mkStrength {
  score : Z;
  maxScore : Z;
  strength : jsstring;
  feedback : list jsstring;
  password_length : Z;
  hasLowercase : bool;
  hasUppercase : bool;
  hasNumbers : bool;
  hasSpecialChars : bool
}.

(** The state of [score] and [feedback] after one [if ... else push]. *)
Definition criterion (met : bool) (advice : option jsstring)
  (state : Z * list jsstring) : Z * list jsstring :=
  let '(score, feedback) := state in
  if met then (score + 1, feedback)
  else match advice with
       | Some text => (score, feedback ++ [text])
       | None => (score, feedback)
       end.

Definition analyzePasswordStrength (password : jsstring) : PasswordStrength :=
  let length := len password in
  let hasLower := existsb is_lower password in
  let hasUpper := existsb is_upper password in
  let hasNumbers := existsb is_digit password in
  let hasSpecial := existsb is_special password in
  let state := (0, []) in
  let state :=
    criterion (8 <=? length) (Some (str "Use at least 8 characters")) state in
  let state := criterion (12 <=? length) None state in
  let state := criterion hasLower (Some (str "Add lowercase letters")) state in
  let state := criterion hasUpper (Some (str "Add uppercase letters")) state in
  let state := criterion hasNumbers (Some (str "Add numbers")) state in
  let state :=
    criterion hasSpecial (Some (str "Add special characters")) state in
  let '(score, feedback) := state in
  let strength :=
    if score <=? 2 then str "Weak"
    else if score <=? 4 then str "Medium" else str "Strong" in
  mkStrength score 6 strength feedback length hasLower hasUpper hasNumbers
    hasSpecial.

Record HashAnalysis : Type := mkAnalysis {
  hash_length : Z;
  possibleTypes : list jsstring;
  providedType : option jsstring;
  isHex : bool
}.

(** [analyzeHashType]: the [switch] on the length pushes the candidate
    types; [providedType] is handed back as it came. *)
Definition analyzeHashType (hash : jsstring) (providedType : option jsstring)
  : HashAnalysis :=
  let hashLength := len hash in
  let possibleTypes :=
    if hashLength =? 32 then [str "MD5"; str "NTLM"]
    else if hashLength =? 40 then [str "SHA-1"]
    else if hashLength =? 56 then [str "SHA-224"]
    else if hashLength =? 64 then [str "SHA-256"]
    else if hashLength =? 96 then [str "SHA-384"]
    else if hashLength =? 128 then [str "SHA-512"]
    else if hashLength =? 60 then
      if startsWith hash (str "$2") then [str "bcrypt"] else []
    else [] in
  mkAnalysis hashLength possibleTypes providedType (hex_test hash).

(** ** The subnet calculator *)

(** [a - b] *)
Definition num_sub (a b : number) : number :=
  match a, b with
  | Num x, Num y => Num (x - y)
  | _, _ => NaN
  end.

(** ToUint32, and the count of a shift, which is its five low bits. *)
Definition toUint32 (n : number) : Z :=
  match n with
  | Num z => z mod 2 ^ 32
  | NaN => 0
  end.

Definition shift_count (n : number) : Z := toUint32 n mod 32.

(** [a << b], [a >>> b], [a | b] and [a & b] *)
Definition num_shl (a b : number) : number :=
  Num (toInt32 (Num (toInt32 a * 2 ^ shift_count b))).

Definition num_shr_unsigned (a b : number) : number :=
  Num (toUint32 a / 2 ^ shift_count b).

Definition num_or (a b : number) : number :=
  Num (Z.lor (toInt32 a) (toInt32 b)).

Definition num_and (a b : number) : number :=
  Num (Z.land (toInt32 a) (toInt32 b)).

(** [Math.pow(2, e) - 2], where this model of numbers holds it: for an
    exponent from 0 to 53, and for NaN. *)
Definition pow2_minus_2 (e : number) : option number :=
  match e with
  | NaN => Some NaN
  | Num z => if (0 <=? z) && (z <=? 53) then Some (Num (2 ^ z - 2)) else None
  end.

(** The string of a number: the decimal numeral of an integer. *)
Definition number_to_string (n : number) : jsstring :=
  match n with
  | NaN => str "NaN"
  | Num z => str (NilZero.string_of_int (Z.to_int z))
  end.

(** [parts.join(separator)] *)
Fixpoint join (separator : jsstring) (parts : list jsstring) : jsstring :=
  match parts with
  | [] => []
  | [part] => part
  | part :: rest => part ++ separator ++ join separator rest
  end.

(** The characters that a numeric literal can be made of: digits, signs,
    the point, the letters of hex digits, of the exponent, of the prefixes
    0x, 0o and 0b, and of Infinity. *)
Definition numeric_character (c : Z) : bool :=
  is_hex_digit c
  || existsb (Z.eqb c) (str "+-.xXoOInity").

Definition trim (s : jsstring) : jsstring :=
  rev (trim_start (rev (trim_start s))).

(** [Number(s)] on a string, where this model of numbers holds the result:
    0 for a string of white space, the value of a numeral of at most 15
    decimal digits, NaN for a string with a character that no numeric
    literal has. [None] stands for the other strings, those with a sign, a
    fraction, an exponent, a prefix or more digits, whose value is not
    worked out here. *)
Definition Number_of_string (s : jsstring) : option number :=
  let t := trim s in
  match t with
  | [] => Some (Num 0)
  | _ :: _ =>
      if forallb is_digit t && (length t <=? 15)%nat then
        match parse_digits 10 None t with
        | Some v => Some (Num v)
        | None => None
        end
      else if negb (forallb numeric_character t) then Some NaN
      else None
  end.

(** [getNetworkClass]; a comparison with NaN is false. *)
Definition between (low high : Z) (n : number) : bool :=
  match n with
  | Num z => (low <=? z) && (z <=? high)
  | NaN => false
  end.

Definition getNetworkClass (firstOctet : number) : jsstring :=
  if between 1 126 firstOctet then str "A"
  else if between 128 191 firstOctet then str "B"
  else if between 192 223 firstOctet then str "C"
  else if between 224 239 firstOctet then str "D (Multicast)"
  else if between 240 255 firstOctet then str "E (Reserved)"
  else str "Unknown".

Record SubnetInfo : Type := mkSubnet {
  network : jsstring;
  broadcast : jsstring;
  subnetMask : jsstring;
  cidr : number;
  hosts : number;
  class : jsstring
}.

(** [ipParts.reduce((acc, part, i) => acc | (part << (8 * (3 - i))), 0)],
    from index [i] on. *)
Fixpoint reduce_parts (ipParts : list number) (i : Z) (acc : number) : number :=
  match ipParts with
  | [] => acc
  | part :: rest =>
      reduce_parts rest (i + 1)
        (num_or acc (num_shl part (Num (8 * (3 - i)))))
  end.

(** [[(x >>> 24) & 0xFF, (x >>> 16) & 0xFF, (x >>> 8) & 0xFF, x & 0xFF]
    .join('.')] *)
Definition dotted (x : number) : jsstring :=
  join (str ".")
    (map number_to_string
       [num_and (num_shr_unsigned x (Num 24)) (Num 255);
        num_and (num_shr_unsigned x (Num 16)) (Num 255);
        num_and (num_shr_unsigned x (Num 8)) (Num 255);
        num_and x (Num 255)]).

(** [ip.split('.').map(Number)], when every part has a value in this
    model. *)
Fixpoint all_some {A : Type} (l : list (option A)) : option (list A) :=
  match l with
  | [] => Some []
  | Some x :: rest => option_map (cons x) (all_some rest)
  | None :: _ => None
  end.

Definition ip_parts (ip : jsstring) : option (list number) :=
  all_some (map Number_of_string (split ip (str "."))).

(** [calculateSubnet(ip, cidr)] for a string and a number that is an
    integer or NaN; [None] where a part of the address or the number of
    hosts has no value in this model. *)
Definition calculateSubnet (ip : jsstring) (cidr : number)
  : option SubnetInfo :=
  match ip_parts ip with
  | None => None
  | Some ipParts =>
      let subnetMask :=
        num_shr_unsigned
          (num_shl (Num 4294967295) (num_sub (Num 32) cidr)) (Num 0) in
      let networkAddress :=
        num_and (reduce_parts ipParts 0 (Num 0)) subnetMask in
      let broadcastAddress :=
        num_or networkAddress
          (num_sub (num_shl (Num 1) (num_sub (Num 32) cidr)) (Num 1)) in
      let firstOctet :=
        match ipParts with
        | first :: _ => first
        | [] => NaN
        end in
      match pow2_minus_2 (num_sub (Num 32) cidr) with
      | None => None
      | Some hosts =>
          Some (mkSubnet (dotted networkAddress) (dotted broadcastAddress)
                  (dotted subnetMask) cidr hosts
                  (getNetworkClass firstOctet))
      end
  end.

(** ** The schemes as the specification words them

    The definitions of this module follow the wording of the specification,
    not the code; the claims compare the decoders with them. *)

Module Reference.

(** *** Cisco Type 7 *)

Definition is_decimal_digit (c : Z) : bool := (48 <=? c) && (c <=? 57).

Definition hex_value (c : Z) : Z :=
  match digit_value c with
  | Some d => d
  | None => 0
  end.

(** The byte written by the [i]-th pair of hex digits of [body]. *)
Definition pair_byte (body : jsstring) (i : nat) : Z :=
  16 * hex_value (nth (2 * i) body 0) + hex_value (nth (2 * i + 1) body 0).

(** The salt written by two decimal digits. *)
Definition salt_of (d1 d2 : Z) : Z := 10 * (d1 - 48) + (d2 - 48).

Definition key_code (k : Z) : Z := nth (Z.to_nat k) key 0.

(** The encoder of the round trip: two decimal digits of salt, then two hex
    digits for every character, upper or lower case. *)
Definition hex_digit_char (upper : bool) (d : Z) : Z :=
  if d <? 10 then 48 + d else (if upper then 55 else 87) + d.

Definition two_hex (upper : bool) (b : Z) : jsstring :=
  [hex_digit_char upper (b / 16); hex_digit_char upper (b mod 16)].

Fixpoint cisco_encode_from (upper : bool) (s i : Z) (plaintext : jsstring)
  : jsstring :=
  match plaintext with
  | [] => []
  | c :: rest =>
      two_hex upper (Z.lxor c (key_code ((i + s) mod 53)))
      ++ cisco_encode_from upper s (i + 1) rest
  end.

Definition cisco_type7_encode (upper : bool) (s : Z) (plaintext : jsstring)
  : jsstring :=
  [48 + s / 10; 48 + s mod 10] ++ cisco_encode_from upper s 0 plaintext.

Definition is_byte (c : Z) : bool := (0 <=? c) && (c <? 256).

(** *** Juniper Type 9 *)

Definition alphabet_parts : list jsstring :=
  map str
    ["QzF3n6/9CAtpu0O"; "B1IREhcSyrleKvMW8LXx"; "7N-dVbwsY2g4oaJZGUDj";
     "iHkq.mPf5T"]%string.

Definition alphabet : jsstring := concat alphabet_parts.

Definition in_alphabet (c : Z) : bool := existsb (Z.eqb c) alphabet.

Fixpoint position_from (a : jsstring) (c p : Z) : option Z :=
  match a with
  | [] => None
  | x :: a' => if x =? c then Some p else position_from a' c (p + 1)
  end.

(** The position of a character in the alphabet. *)
Definition pos (c : Z) : option Z := position_from alphabet c 0.

Fixpoint part_index (parts : list jsstring) (c i : Z) : option Z :=
  match parts with
  | [] => None
  | part :: rest =>
      if existsb (Z.eqb c) part then Some i else part_index rest c (i + 1)
  end.

(** The family index: 3 minus the index of the part that holds the
    character. *)
Definition family (c : Z) : option Z :=
  option_map (fun i => 3 - i) (part_index alphabet_parts c 0).

Definition encodingTable : list (list Z) :=
  [[1; 4; 32]; [1; 16; 32]; [1; 8; 32]; [1; 64]; [1; 32]; [1; 4; 16; 128];
   [1; 32; 64]].

(** The row for the next output character. *)
Definition row (outputLength : nat) : list Z :=
  nth (outputLength mod 7) encodingTable [].

(** The circular gap between a character and the one before it. *)
Definition gap (c prev : Z) : option Z :=
  match pos c, pos prev with
  | Some pc, Some pp => Some ((pc - pp) mod 65 - 1)
  | _, _ => None
  end.

(** The weighted sum of the gaps of the characters consumed by one row. *)
Fixpoint row_sum (weights : list Z) (consumed : jsstring) (prev : Z)
  : option Z :=
  match weights, consumed with
  | [], [] => Some 0
  | w :: weights', c :: consumed' =>
      match gap c prev, row_sum weights' consumed' c with
      | Some g, Some v => Some (w * g + v)
      | _, _ => None
      end
  | _, _ => None
  end.

(** The sums of the rows, one for each output character; [None] when the
    characters run out inside a row or lie outside the alphabet. *)
Fixpoint reference_rows (budget outputLength : nat) (prev : Z)
  (data : jsstring) : option (list Z) :=
  match data with
  | [] => Some []
  | _ :: _ =>
      match budget with
      | O => None
      | S budget' =>
          let weights := row outputLength in
          let consumed := firstn (length weights) data in
          match row_sum weights consumed prev with
          | Some v =>
              option_map (cons v)
                (reference_rows budget' (S outputLength) (last consumed prev)
                   (skipn (length weights) data))
          | None => None
          end
      end
  end.

(** What remains of [rest] once the skip block is discarded. *)
Definition data_after_skip (rest : jsstring) : jsstring :=
  match rest with
  | [] => []
  | first :: _ =>
      match family first with
      | Some f => skipn (Z.to_nat (f + 1)) rest
      | None => rest
      end
  end.

Definition juniper_reference (rest : jsstring) : option (list Z) :=
  match rest with
  | [] => None
  | first :: _ =>
      let data := data_after_skip rest in
      reference_rows (length data) 0 first data
  end.

(** The number of characters that the first [n] rows consume. *)
Fixpoint rows_total (n : nat) : nat :=
  match n with
  | O => 0
  | S m => rows_total m + length (row m)
  end.

(** The data align with the row table when some number of rows consumes
    exactly all of them. *)
Definition aligned (data : jsstring) : bool :=
  existsb (fun n => rows_total n =? length data)%nat (seq 0 (S (length data))).

End Reference.

Import Reference.

(** ** Notions of the proofs *)

(** The code unit that [String.fromCharCode] makes of a sum. *)
Definition code_unit (v : Z) : Z := v mod 65536.

(** The names that the [switch] of the route knows. *)
Definition vendor_types : list jsstring :=
  map str ["cisco-type7"; "juniper-type9"; "base64"; "generic-md5"]%string.

(** One turn of the loop of [decryptCiscoType7], and the loop unrolled over
    the pairs that follow position [i]. *)
Definition cisco_char (salt : number) (i : Z) (hexPair : jsstring) : jsstring :=
  fromCharCode
    (num_xor (parseInt hexPair 16)
       (charCodeAt key
          (num_rem (num_add (Num (i / 2 - 1)) salt) (Num (len key))))).

Fixpoint cisco_pairs (salt : number) (i : Z) (s : jsstring) : jsstring :=
  match s with
  | [] => []
  | [a] => cisco_char salt i [a]
  | a :: b :: rest => cisco_char salt i [a; b] ++ cisco_pairs salt (i + 2) rest
  end.

Definition hex_digits : list Z :=
  [48; 49; 50; 51; 52; 53; 54; 55; 56; 57; 65; 66; 67; 68; 69; 70;
   97; 98; 99; 100; 101; 102].

Definition number_eqb (a b : number) : bool :=
  match a, b with
  | Num x, Num y => x =? y
  | NaN, NaN => true
  | _, _ => false
  end.

(** The plaintext of the pairs of [body], the first of them at index [i]. *)
Fixpoint type7_plain (s i : Z) (body : jsstring) : jsstring :=
  match body with
  | a :: b :: rest =>
      Z.lxor (16 * hex_value a + hex_value b) (key_code ((i + s) mod 53))
      :: type7_plain s (i + 1) rest
  | _ => []
  end.

Definition nibbles : list Z := map Z.of_nat (seq 0 16).

(** What the code and the specification's wording must agree on for a
    character of the alphabet. *)
Definition alphabet_check (c : Z) : bool :=
  match pos c, family c with
  | Some p, Some f =>
      (0 <=? p) && (p <? 65) && (indexOf JUNIPER_KEYS_STRING [c] =? p)
      && (0 <=? f) && (f <=? 3)
      && match get_property JUNIPER_CHARACTER_KEYS [c] with
         | VNumber z => z =? f
         | _ => false
         end
      && negb (c =? 36)
  | _, _ => false
  end.

Definition weights_total (weights : list Z) : Z := fold_right Z.add 0 weights.

(** The bytes that the pairs of hex digits of [body] write. *)
Fixpoint hex_bytes (body : jsstring) : list Z :=
  match body with
  | a :: b :: rest => 16 * hex_value a + hex_value b :: hex_bytes rest
  | _ => []
  end.

(** One of the letters A to F, in either case. *)
Definition is_hex_letter (c : Z) : bool :=
  is_hex_digit c && negb (is_decimal_digit c).

(** Any character but the dollar sign. *)
Definition no_dollar (c : Z) : bool := negb (c =? 36).

(** An address as a number, and the dotted string of a number below
    2^32. *)
Definition is_octet (z : Z) : bool := (0 <=? z) && (z <=? 255).

Definition address_value (a b c d : Z) : Z :=
  a * 2 ^ 24 + b * 2 ^ 16 + c * 2 ^ 8 + d.

Definition quad (u : Z) : jsstring :=
  join (str ".")
    (map number_to_string
       [Num (u / 2 ^ 24 mod 256); Num (u / 2 ^ 16 mod 256);
        Num (u / 2 ^ 8 mod 256); Num (u mod 256)]).

(** Any character but the point, and the octets of a number. *)
Definition no_dot (c : Z) : bool := negb (c =? 46).

Definition octets_of (u : Z) : list number :=
  [Num (u / 2 ^ 24 mod 256); Num (u / 2 ^ 16 mod 256);
   Num (u / 2 ^ 8 mod 256); Num (u mod 256)].


(** The gap computation once no lookup can fail: a character outside the
    alphabet has the position -1, a last row cut short sums the characters
    it has, and the remainder is read up to a second marker. *)
Definition position_or_minus_one (c : Z) : Z :=
  match pos c with
  | Some p => p
  | None => -1
  end.

Definition gap_unchecked (c prev : Z) : Z :=
  (position_or_minus_one c - position_or_minus_one prev) mod 65 - 1.

Fixpoint row_sum_unchecked (weights : list Z) (consumed : jsstring) (prev : Z)
  : Z :=
  match weights, consumed with
  | w :: weights', c :: consumed' =>
      w * gap_unchecked c prev + row_sum_unchecked weights' consumed' c
  | _, _ => 0
  end.

Fixpoint rows_unchecked (budget outputLength : nat) (prev : Z)
  (data : jsstring) : list Z :=
  match data, budget with
  | _ :: _, S budget' =>
      let weights := row outputLength in
      let consumed := firstn (length weights) data in
      row_sum_unchecked weights consumed prev
      :: rows_unchecked budget' (S outputLength) (last consumed prev)
           (skipn (length weights) data)
  | _, _ => []
  end.

(** The sums for a remainder: every row of the data that follow the skip
    block, the first character being the one before the first of them. *)
Definition sums_unchecked (rest : jsstring) : list Z :=
  match rest with
  | [] => []
  | first :: _ =>
      let data := data_after_skip rest in
      rows_unchecked (length data) 0 first data
  end.

(** What stands before the first marker "$9$" of a text. *)
Fixpoint before_marker (s : jsstring) : jsstring :=
  match s with
  | [] => []
  | c :: s' =>
      if startsWith s (str "$9$") then [] else c :: before_marker s'
  end.

(** ** Facts about the runtime *)

Lemma len_nonneg (s : jsstring) : 0 <= len s.
Proof. unfold len. lia. Qed.

Lemma string_eqb_eq (a b : jsstring) : string_eqb a b = true <-> a = b.
Proof.
  revert b. induction a as [|x a IH]; intros [|y b]; simpl;
    try (split; congruence).
  rewrite andb_true_iff, Z.eqb_eq, IH. split.
  - intros [-> ->]. reflexivity.
  - intros E. inversion E. auto.
Qed.

Lemma substring_spec (s : jsstring) (a b : Z) :
  0 <= a <= b ->
  substring s (Num a) (Num b)
  = firstn (Z.to_nat (b - a)) (skipn (Z.to_nat a) s).
Proof.
  intros H. unfold substring, clamp. simpl toInteger.
  pose proof (len_nonneg s) as Hl. unfold len in *.
  destruct (Z_le_gt_dec b (Z.of_nat (length s))) as [Hb|Hb].
  - replace (Z.max 0 (Z.min a (Z.of_nat (length s)))) with a by lia.
    replace (Z.max 0 (Z.min b (Z.of_nat (length s)))) with b by lia.
    rewrite Z.min_l, Z.max_r by lia. reflexivity.
  - destruct (Z_le_gt_dec a (Z.of_nat (length s))) as [Ha|Ha].
    + replace (Z.max 0 (Z.min a (Z.of_nat (length s)))) with a by lia.
      replace (Z.max 0 (Z.min b (Z.of_nat (length s))))
        with (Z.of_nat (length s)) by lia.
      rewrite Z.min_l, Z.max_r by lia.
      rewrite !firstn_all2; try reflexivity; rewrite length_skipn; lia.
    + replace (Z.max 0 (Z.min a (Z.of_nat (length s))))
        with (Z.of_nat (length s)) by lia.
      replace (Z.max 0 (Z.min b (Z.of_nat (length s))))
        with (Z.of_nat (length s)) by lia.
      rewrite Z.min_id, Z.max_id, Z.sub_diag. simpl.
      rewrite !skipn_all2 by lia. rewrite firstn_nil. reflexivity.
Qed.

Lemma substring_from_spec (s : jsstring) (a : Z) :
  0 <= a -> substring_from s (Num a) = skipn (Z.to_nat a) s.
Proof.
  intros H. unfold substring_from.
  destruct (Z_le_gt_dec a (len s)) as [Ha|Ha].
  - rewrite substring_spec by lia.
    apply firstn_all2. rewrite length_skipn. unfold len in *. lia.
  - unfold substring, clamp. simpl toInteger.
    pose proof (len_nonneg s) as Hl.
    replace (Z.max 0 (Z.min a (len s))) with (len s) by lia.
    replace (Z.max 0 (Z.min (len s) (len s))) with (len s) by lia.
    rewrite Z.min_id, Z.max_id, Z.sub_diag. unfold len in *.
    rewrite !skipn_all2 by lia. reflexivity.
Qed.

Lemma substring_from_NaN (s : jsstring) : substring_from s NaN = s.
Proof.
  unfold substring_from, substring, clamp. simpl toInteger.
  pose proof (len_nonneg s) as Hl.
  replace (Z.max 0 (Z.min 0 (len s))) with 0 by lia.
  replace (Z.max 0 (Z.min (len s) (len s))) with (len s) by lia.
  rewrite Z.min_l, Z.max_r by lia.
  rewrite Z.sub_0_r. unfold len. rewrite Nat2Z.id. simpl. apply firstn_all.
Qed.

Lemma number_eqb_eq (a b : number) : number_eqb a b = true -> a = b.
Proof.
  destruct a, b; simpl; try congruence.
  intros E%Z.eqb_eq. congruence.
Qed.

(** ** The loop of the Cisco Type 7 decoder *)

Lemma is_hex_digit_In (c : Z) : is_hex_digit c = true -> In c hex_digits.
Proof.
  unfold is_hex_digit, hex_digits.
  rewrite !orb_true_iff, !andb_true_iff, !Z.leb_le. simpl. lia.
Qed.

Lemma is_decimal_digit_hex (c : Z) :
  is_decimal_digit c = true -> is_hex_digit c = true.
Proof.
  unfold is_decimal_digit, is_hex_digit. intros ->. reflexivity.
Qed.

Lemma parseInt_hex_pair (a b : Z) :
  is_hex_digit a = true -> is_hex_digit b = true ->
  parseInt [a; b] 16 = Num (16 * hex_value a + hex_value b).
Proof.
  intros Ha%is_hex_digit_In Hb%is_hex_digit_In.
  assert (C : forallb (fun a => forallb (fun b =>
                number_eqb (parseInt [a; b] 16)
                  (Num (16 * hex_value a + hex_value b))) hex_digits)
                hex_digits = true) by (vm_compute; reflexivity).
  rewrite forallb_forall in C. specialize (C a Ha).
  rewrite forallb_forall in C. apply number_eqb_eq, C, Hb.
Qed.

Lemma parseInt_decimal_pair (a b : Z) :
  is_decimal_digit a = true -> is_decimal_digit b = true ->
  parseInt [a; b] 10 = Num (salt_of a b).
Proof.
  intros Ha Hb.
  assert (Ia : In a (firstn 10 hex_digits)).
  { unfold is_decimal_digit in Ha.
    rewrite andb_true_iff, !Z.leb_le in Ha. simpl. lia. }
  assert (Ib : In b (firstn 10 hex_digits)).
  { unfold is_decimal_digit in Hb.
    rewrite andb_true_iff, !Z.leb_le in Hb. simpl. lia. }
  assert (C : forallb (fun a => forallb (fun b =>
                number_eqb (parseInt [a; b] 10) (Num (salt_of a b)))
                (firstn 10 hex_digits)) (firstn 10 hex_digits) = true)
    by (vm_compute; reflexivity).
  rewrite forallb_forall in C. specialize (C a Ia).
  rewrite forallb_forall in C. apply number_eqb_eq, C, Ib.
Qed.

Lemma cisco_for_step (budget : nat) (encrypted : jsstring) (salt : number)
  (i : Z) (decrypted : jsstring) :
  cisco_for (S budget) encrypted salt i decrypted
  = if i <? len encrypted
    then cisco_for budget encrypted salt (i + 2)
           (decrypted
            ++ cisco_char salt i (substring encrypted (Num i) (Num (i + 2))))
    else Done decrypted.
Proof. reflexivity. Qed.

Lemma skipn_nil_len (s : jsstring) (i : Z) :
  0 <= i -> skipn (Z.to_nat i) s = [] -> (i <? len s) = false.
Proof.
  intros Hi E. apply Z.ltb_ge.
  assert (L : length (skipn (Z.to_nat i) s) = 0%nat) by (rewrite E; reflexivity).
  rewrite length_skipn in L. unfold len. lia.
Qed.

Lemma skipn_cons_len (s : jsstring) (i a : Z) (t : jsstring) :
  0 <= i -> skipn (Z.to_nat i) s = a :: t -> (i <? len s) = true.
Proof.
  intros Hi E. apply Z.ltb_lt.
  assert (L : length (skipn (Z.to_nat i) s) = S (length t))
    by (rewrite E; reflexivity).
  rewrite length_skipn in L. unfold len. lia.
Qed.

(** With as many turns as the text has characters, the loop reaches its exit,
    having decoded the pairs from position [i] on. *)
Lemma cisco_for_pairs (budget : nat) :
  forall (encrypted : jsstring) (salt : number) (i : Z) (decrypted : jsstring),
    0 <= i ->
    (length (skipn (Z.to_nat i) encrypted) <= budget)%nat ->
    cisco_for budget encrypted salt i decrypted
    = Done (decrypted ++ cisco_pairs salt i (skipn (Z.to_nat i) encrypted)).
Proof.
  induction budget as [|budget IH]; intros encrypted salt i decrypted Hi Hb.
  - destruct (skipn (Z.to_nat i) encrypted) as [|a t] eqn:E; simpl in Hb; [|lia].
    simpl. rewrite (skipn_nil_len _ _ Hi E), app_nil_r. reflexivity.
  - rewrite cisco_for_step.
    destruct (skipn (Z.to_nat i) encrypted) as [|a t] eqn:E.
    + rewrite (skipn_nil_len _ _ Hi E), app_nil_r. reflexivity.
    + rewrite (skipn_cons_len _ _ _ _ Hi E).
      rewrite substring_spec by lia.
      replace (Z.to_nat (i + 2 - i)) with 2%nat by lia. rewrite E.
      assert (E2 : skipn (Z.to_nat (i + 2)) encrypted = skipn 2 (a :: t)).
      { rewrite <- E, skipn_skipn. f_equal. lia. }
      rewrite IH; [|lia|].
      * rewrite E2. destruct t as [|b rest]; simpl.
        -- rewrite app_nil_r. reflexivity.
        -- rewrite <- app_assoc. reflexivity.
      * rewrite E2. simpl in Hb. destruct t as [|b rest]; simpl in *; lia.
Qed.

Lemma lxor_bound (n a b : Z) :
  0 <= a < 2 ^ n -> 0 <= b < 2 ^ n -> 0 <= Z.lxor a b < 2 ^ n.
Proof.
  intros Ha Hb.
  assert (H0 : 0 <= Z.lxor a b) by (apply Z.lxor_nonneg; lia).
  split; [exact H0|].
  destruct (Z.eq_dec (Z.lxor a b) 0) as [E|E]; [lia|].
  assert (Hn : 0 < n).
  { destruct (Z_lt_le_dec 0 n) as [|Hn]; [assumption|exfalso].
    assert (2 ^ n <= 1).
    { destruct (Z.eq_dec n 0) as [->|]; [simpl; lia|].
      rewrite Z.pow_neg_r by lia. lia. }
    assert (a = 0) by lia. assert (b = 0) by lia. subst. apply E. reflexivity. }
  apply Z.log2_lt_pow2; [lia|].
  eapply Z.le_lt_trans; [apply Z.log2_lxor; lia|].
  apply Z.max_lub_lt.
  - destruct (Z.eq_dec a 0) as [->|]; [simpl; lia|].
    apply Z.log2_lt_pow2; lia.
  - destruct (Z.eq_dec b 0) as [->|]; [simpl; lia|].
    apply Z.log2_lt_pow2; lia.
Qed.

Lemma hex_value_bound (c : Z) : is_hex_digit c = true -> 0 <= hex_value c < 16.
Proof.
  intros H%is_hex_digit_In.
  assert (C : forallb (fun c => (0 <=? hex_value c) && (hex_value c <? 16))
                hex_digits = true) by (vm_compute; reflexivity).
  rewrite forallb_forall in C. specialize (C c H).
  rewrite andb_true_iff, Z.leb_le, Z.ltb_lt in C. exact C.
Qed.

Lemma key_code_bound (k : Z) : 0 <= key_code k < 128.
Proof.
  unfold key_code.
  assert (C : forallb (fun c => (0 <=? c) && (c <? 128)) key = true)
    by (vm_compute; reflexivity).
  rewrite forallb_forall in C.
  destruct (Nat.lt_ge_cases (Z.to_nat k) (length key)) as [L|L].
  - specialize (C _ (nth_In key 0 L)).
    rewrite andb_true_iff, Z.leb_le, Z.ltb_lt in C. exact C.
  - rewrite nth_overflow by exact L. lia.
Qed.

Lemma len_key : len key = 53.
Proof. reflexivity. Qed.

Lemma toInt32_small (z : Z) : 0 <= z < 2 ^ 31 -> toInt32 (Num z) = z.
Proof.
  intros H. unfold toInt32. rewrite Z.mod_small; lia.
Qed.

(** The key character of the pair at position [i] under salt [s]. *)
Lemma cisco_key_char (s i : Z) :
  0 <= s -> 2 <= i ->
  charCodeAt key (num_rem (num_add (Num (i / 2 - 1)) (Num s)) (Num (len key)))
  = Num (key_code ((i / 2 - 1 + s) mod 53)).
Proof.
  intros Hs Hi. rewrite len_key. simpl num_add. simpl num_rem.
  assert (Hj : 0 <= i / 2 - 1).
  { assert (1 <= i / 2) by (apply Z.div_le_lower_bound; lia). lia. }
  rewrite Z.rem_mod_nonneg by lia.
  pose proof (Z.mod_pos_bound (i / 2 - 1 + s) 53 ltac:(lia)) as B.
  unfold charCodeAt. simpl toInteger. rewrite len_key.
  replace (0 <=? (i / 2 - 1 + s) mod 53) with true by (symmetry; apply Z.leb_le; lia).
  replace ((i / 2 - 1 + s) mod 53 <? 53) with true by (symmetry; apply Z.ltb_lt; lia).
  reflexivity.
Qed.

Lemma cisco_char_byte (s i byte : Z) (hexPair : jsstring) :
  0 <= s -> 2 <= i -> 0 <= byte < 256 ->
  parseInt hexPair 16 = Num byte ->
  cisco_char (Num s) i hexPair
  = [Z.lxor byte (key_code ((i / 2 - 1 + s) mod 53))].
Proof.
  intros Hs Hi Hb E. unfold cisco_char. rewrite E, cisco_key_char by assumption.
  pose proof (key_code_bound ((i / 2 - 1 + s) mod 53)) as K.
  unfold num_xor. rewrite !toInt32_small by lia.
  unfold fromCharCode, toUint16.
  pose proof (lxor_bound 8 byte (key_code ((i / 2 - 1 + s) mod 53))
                ltac:(simpl; lia) ltac:(simpl; lia)) as X.
  simpl in X. rewrite Z.mod_small by (simpl; lia). reflexivity.
Qed.

(** On an even number of hex digits the loop computes [type7_plain]. *)
Lemma cisco_pairs_plain (n : nat) :
  forall (body : jsstring) (s i : Z),
    length body = (2 * n)%nat -> forallb is_hex_digit body = true ->
    0 <= s -> 0 <= i ->
    cisco_pairs (Num s) (2 * i + 2) body = type7_plain s i body.
Proof.
  induction n as [|n IH]; intros body s i L H Hs Hi.
  - destruct body; [reflexivity|discriminate].
  - destruct body as [|a [|b rest]]; try (simpl in L; lia).
    cbn [forallb] in H. rewrite !andb_true_iff in H. destruct H as (Ha & Hb & Hr).
    cbn [cisco_pairs type7_plain].
    pose proof (hex_value_bound a Ha). pose proof (hex_value_bound b Hb).
    rewrite (cisco_char_byte s (2 * i + 2) (16 * hex_value a + hex_value b))
      by (try apply parseInt_hex_pair; auto; lia).
    replace ((2 * i + 2) / 2 - 1) with i
      by (replace (2 * i + 2) with ((i + 1) * 2) by lia;
          rewrite Z.div_mul; lia).
    replace (2 * i + 2 + 2) with (2 * (i + 1) + 2) by lia.
    rewrite IH; auto; try lia. simpl in L. lia.
Qed.

Lemma type7_plain_length (n : nat) :
  forall (body : jsstring) (s i : Z),
    length body = (2 * n)%nat -> length (type7_plain s i body) = n.
Proof.
  induction n as [|n IH]; intros body s i L.
  - destruct body; [reflexivity|discriminate].
  - destruct body as [|a [|b rest]]; try (simpl in L; lia).
    simpl. f_equal. apply IH. simpl in L. lia.
Qed.

Lemma type7_plain_nth (n : nat) :
  forall (body : jsstring) (s i : Z) (k : nat),
    length body = (2 * n)%nat -> (k < n)%nat ->
    nth k (type7_plain s i body) 0
    = Z.lxor (pair_byte body k) (key_code ((Z.of_nat k + i + s) mod 53)).
Proof.
  induction n as [|n IH]; intros body s i k L Hk; [lia|].
  destruct body as [|a [|b rest]]; try (simpl in L; lia).
  destruct k as [|k].
  - reflexivity.
  - cbn [type7_plain nth]. rewrite IH by (simpl in L; lia).
    unfold pair_byte.
    replace (2 * S k)%nat with (S (S (2 * k))) by lia.
    replace (2 * S k + 1)%nat with (S (S (2 * k + 1))) by lia.
    cbn [nth]. do 3 f_equal. lia.
Qed.

Lemma even_length_half (body : jsstring) :
  Nat.even (length body) = true ->
  length body = (2 * Nat.div2 (length body))%nat.
Proof.
  intros E. apply Nat.even_spec in E. destruct E as [m E].
  rewrite E at 1. rewrite E, Nat.div2_double. reflexivity.
Qed.

(** The decoder on a text of two decimal digits and an even number of hex
    digits. *)
Lemma decryptCiscoType7_plain (d1 d2 : Z) (body : jsstring) :
  is_decimal_digit d1 = true -> is_decimal_digit d2 = true ->
  forallb is_hex_digit body = true -> Nat.even (length body) = true ->
  decryptCiscoType7 (d1 :: d2 :: body)
  = Done (succeeded (VString (type7_plain (salt_of d1 d2) 0 body))).
Proof.
  intros H1 H2 Hb He. unfold decryptCiscoType7.
  assert (T : hex_test (d1 :: d2 :: body) = true).
  { simpl. rewrite (is_decimal_digit_hex _ H1), (is_decimal_digit_hex _ H2), Hb.
    reflexivity. }
  rewrite T. cbn [negb].
  rewrite substring_spec by lia. cbn [Z.to_nat Z.sub skipn firstn].
  change (Z.to_nat (2 - 0)) with 2%nat. cbn [firstn skipn].
  rewrite parseInt_decimal_pair by assumption.
  rewrite cisco_for_pairs; [|lia|simpl; lia].
  change (skipn (Z.to_nat 2) (d1 :: d2 :: body)) with body.
  assert (S0 : 0 <= salt_of d1 d2).
  { unfold is_decimal_digit in H1, H2.
    rewrite andb_true_iff, !Z.leb_le in H1, H2. unfold salt_of. lia. }
  change 2 with (2 * 0 + 2) at 1.
  rewrite (cisco_pairs_plain _ _ _ _ (even_length_half _ He)) by (auto; lia).
  reflexivity.
Qed.

(** *** The encoder of the round trip *)

Lemma hex_digit_char_ok (upper : bool) (d : Z) :
  0 <= d < 16 ->
  is_hex_digit (hex_digit_char upper d) = true
  /\ hex_value (hex_digit_char upper d) = d.
Proof.
  intros H.
  assert (I : In d nibbles) by (unfold nibbles; simpl; lia).
  assert (C : forallb (fun d =>
                forallb (fun upper =>
                  is_hex_digit (hex_digit_char upper d)
                  && (hex_value (hex_digit_char upper d) =? d)) [true; false])
                nibbles = true) by (vm_compute; reflexivity).
  rewrite forallb_forall in C. specialize (C d I).
  rewrite forallb_forall in C.
  assert (U : In upper [true; false]) by (destruct upper; simpl; auto).
  specialize (C upper U). rewrite andb_true_iff, Z.eqb_eq in C. exact C.
Qed.

Lemma two_hex_ok (upper : bool) (b : Z) :
  0 <= b < 256 ->
  exists x y, two_hex upper b = [x; y]
    /\ is_hex_digit x = true /\ is_hex_digit y = true
    /\ 16 * hex_value x + hex_value y = b.
Proof.
  intros H. unfold two_hex.
  assert (Hq : 0 <= b / 16 < 16).
  { split; [apply Z.div_pos; lia|apply Z.div_lt_upper_bound; lia]. }
  pose proof (Z.mod_pos_bound b 16 ltac:(lia)) as Hr.
  destruct (hex_digit_char_ok upper _ Hq) as [X1 X2].
  destruct (hex_digit_char_ok upper _ Hr) as [Y1 Y2].
  eexists _, _. repeat split; try eassumption.
  rewrite X2, Y2. symmetry. apply Z.div_mod. lia.
Qed.

Lemma lxor_key_twice (c k : Z) : Z.lxor (Z.lxor c k) k = c.
Proof. rewrite Z.lxor_assoc, Z.lxor_nilpotent, Z.lxor_0_r. reflexivity. Qed.

Lemma cisco_encode_from_ok (upper : bool) (s : Z) (plaintext : jsstring) :
  forall i : Z,
    forallb is_byte plaintext = true ->
    forallb is_hex_digit (cisco_encode_from upper s i plaintext) = true
    /\ Nat.even (length (cisco_encode_from upper s i plaintext)) = true
    /\ type7_plain s i (cisco_encode_from upper s i plaintext) = plaintext.
Proof.
  induction plaintext as [|c rest IH]; intros i H.
  - repeat split.
  - cbn [forallb] in H. rewrite andb_true_iff in H. destruct H as [Hc Hr].
    unfold is_byte in Hc. rewrite andb_true_iff, Z.leb_le, Z.ltb_lt in Hc.
    destruct (IH (i + 1) Hr) as (H1 & H2 & H3).
    pose proof (key_code_bound ((i + s) mod 53)) as K.
    pose proof (lxor_bound 8 c (key_code ((i + s) mod 53))
                  ltac:(simpl; lia) ltac:(simpl; lia)) as X.
    destruct (two_hex_ok upper _ X) as (x & y & E & Hx & Hy & V).
    cbn [cisco_encode_from]. rewrite E. cbn [app forallb length type7_plain].
    rewrite Hx, Hy, H1, H3, V, lxor_key_twice. repeat split.
    exact H2.
Qed.

Lemma salt_digits_ok (s : Z) :
  0 <= s < 100 ->
  is_decimal_digit (48 + s / 10) = true
  /\ is_decimal_digit (48 + s mod 10) = true
  /\ salt_of (48 + s / 10) (48 + s mod 10) = s.
Proof.
  intros H.
  assert (Hq : 0 <= s / 10 < 10).
  { split; [apply Z.div_pos; lia|apply Z.div_lt_upper_bound; lia]. }
  pose proof (Z.mod_pos_bound s 10 ltac:(lia)) as Hr.
  pose proof (Z.div_mod s 10 ltac:(lia)) as D.
  unfold is_decimal_digit, salt_of.
  rewrite !andb_true_iff, !Z.leb_le. lia.
Qed.

(** ** The loop of the Juniper Type 9 decoder *)

Lemma juniper_while_step (budget : nat) (stripped previousChar decrypted : jsstring) :
  juniper_while (S budget) stripped previousChar decrypted
  = if 0 <? len stripped then
      match nth_error JUNIPER_ENCODING
              (Z.to_nat (Z.rem (len decrypted)
                           (Z.of_nat (length JUNIPER_ENCODING)))) with
      | None =>
          Raised (str "Cannot read properties of undefined (reading 'length')")
      | Some decode =>
          juniper_while budget
            (substring_from stripped (Num (Z.of_nat (length decode))))
            (snd (nibble_for
                    (substring stripped (Num 0) (Num (Z.of_nat (length decode))))
                    decode 0 previousChar (Num 0)))
            (decrypted
             ++ fromCharCode
                  (fst (nibble_for
                          (substring stripped (Num 0)
                             (Num (Z.of_nat (length decode))))
                          decode 0 previousChar (Num 0))))
      end
    else Done decrypted.
Proof.
  cbn [juniper_while]. destruct (0 <? len stripped); [|reflexivity].
  destruct (nth_error JUNIPER_ENCODING _); [|reflexivity].
  destruct (nibble_for _ _ _ _ _). reflexivity.
Qed.

(** The row that the loop selects is the row of the table, of two to four
    weights. *)
Lemma encoding_row (decrypted : jsstring) :
  nth_error JUNIPER_ENCODING
    (Z.to_nat (Z.rem (len decrypted) (Z.of_nat (length JUNIPER_ENCODING))))
  = Some (row (length decrypted))
  /\ (2 <= length (row (length decrypted)) <= 4)%nat.
Proof.
  unfold len. change (Z.of_nat (length JUNIPER_ENCODING)) with 7.
  rewrite Z.rem_mod_nonneg by lia.
  change 7 with (Z.of_nat 7). rewrite <- Nat2Z.inj_mod, Nat2Z.id.
  unfold row.
  pose proof (Nat.mod_upper_bound (length decrypted) 7 ltac:(lia)) as B.
  destruct (length decrypted mod 7)%nat as [|[|[|[|[|[|[|k]]]]]]];
    try lia; simpl; split; try reflexivity; lia.
Qed.

(** With as many turns as there are characters left, the loop reaches its
    exit, whatever the characters are. *)
Lemma juniper_while_total (budget : nat) :
  forall stripped previousChar decrypted : jsstring,
    (length stripped <= budget)%nat ->
    exists plaintext : jsstring,
      juniper_while budget stripped previousChar decrypted = Done plaintext.
Proof.
  induction budget as [|budget IH]; intros stripped previousChar decrypted Hb.
  - destruct stripped; [|simpl in Hb; lia]. exists decrypted. reflexivity.
  - rewrite juniper_while_step.
    destruct (0 <? len stripped) eqn:E; [|exists decrypted; reflexivity].
    destruct (encoding_row decrypted) as [-> B].
    apply IH. rewrite substring_from_spec by lia.
    rewrite length_skipn, Nat2Z.id.
    apply Z.ltb_lt in E. unfold len in E. lia.
Qed.

Lemma split_go_nonempty (separator s : jsstring) :
  forall (skip : nat) (cur : jsstring),
    exists piece pieces, split_go separator skip cur s = piece :: pieces.
Proof.
  induction s as [|c s IH]; intros skip cur.
  - destruct skip; simpl; eauto.
  - destruct skip; cbn [split_go]; [|apply IH].
    destruct (startsWith (c :: s) separator); [eauto|apply IH].
Qed.

Lemma startsWith_prefix (s : jsstring) :
  startsWith s (str "$9$") = true -> exists rest, s = str "$9$" ++ rest.
Proof.
  change (str "$9$") with [36; 57; 36].
  destruct s as [|a [|b [|c rest]]]; cbn [startsWith];
    rewrite ?andb_false_r; try discriminate.
  rewrite !andb_true_iff, !Z.eqb_eq.
  intros (<- & <- & <- & _). exists rest. reflexivity.
Qed.

Lemma startsWith_nil (s : jsstring) : startsWith s [] = true.
Proof. destruct s; reflexivity. Qed.

Lemma split_go_match (separator cur : jsstring) (c : Z) (s : jsstring) :
  startsWith (c :: s) separator = true ->
  split_go separator 0 cur (c :: s)
  = rev cur :: split_go separator (length separator - 1) [] s.
Proof. intros H. cbn [split_go]. rewrite H. reflexivity. Qed.

Lemma split_go_pass (separator cur : jsstring) (c : Z) (s : jsstring) :
  startsWith (c :: s) separator = false ->
  split_go separator 0 cur (c :: s) = split_go separator 0 (c :: cur) s.
Proof. intros H. cbn [split_go]. rewrite H. reflexivity. Qed.

Lemma split_prefix (rest : jsstring) :
  exists piece pieces,
    split (str "$9$" ++ rest) (str "$9$") = [] :: piece :: pieces
    /\ piece :: pieces = split_go (str "$9$") 0 [] rest.
Proof.
  destruct (split_go_nonempty (str "$9$") rest 0 []) as (piece & pieces & E).
  exists piece, pieces. split; [|symmetry; exact E].
  unfold split. change (str "$9$" ++ rest) with (36 :: 57 :: 36 :: rest).
  change (str "$9$") with [36; 57; 36] in *.
  rewrite split_go_match.
  - cbn [length Nat.sub rev].
    change (split_go [36; 57; 36] 2 [] (57 :: 36 :: rest))
      with (split_go [36; 57; 36] 0 [] rest).
    rewrite E. reflexivity.
  - cbn [startsWith]. rewrite !Z.eqb_refl. apply startsWith_nil.
Qed.

(** Past its prefix test the Juniper decoder always succeeds. *)
Lemma decryptJuniperType9_total (encryptedPassword : jsstring) :
  startsWith encryptedPassword (str "$9$") = true ->
  exists plaintext : jsstring,
    decryptJuniperType9 encryptedPassword
    = Done (succeeded (VString plaintext)).
Proof.
  intros H. unfold decryptJuniperType9. rewrite H. cbn [negb].
  destruct (startsWith_prefix _ H) as [rest ->].
  destruct (split_prefix rest) as (piece & pieces & -> & _).
  cbn [nth_error].
  match goal with
  | |- context [juniper_while ?b ?s ?p ?d] =>
      destruct (juniper_while_total b s p d (Nat.le_refl _)) as [plaintext ->]
  end.
  exists plaintext. reflexivity.
Qed.

(** *** The loop on characters of the alphabet *)

Lemma alphabet_char (c : Z) :
  in_alphabet c = true ->
  exists p f,
    pos c = Some p /\ 0 <= p < 65 /\ indexOf JUNIPER_KEYS_STRING [c] = p
    /\ family c = Some f /\ 0 <= f <= 3
    /\ get_property JUNIPER_CHARACTER_KEYS [c] = VNumber f
    /\ c <> 36.
Proof.
  intros H. unfold in_alphabet in H. apply existsb_exists in H.
  destruct H as (x & I & E%Z.eqb_eq). subst x.
  assert (C : forallb alphabet_check alphabet = true)
    by (vm_compute; reflexivity).
  rewrite forallb_forall in C. specialize (C c I). unfold alphabet_check in C.
  destruct (pos c) as [p|]; [|discriminate].
  destruct (family c) as [f|]; [|discriminate].
  destruct (get_property JUNIPER_CHARACTER_KEYS [c]) as [|z| | |];
    rewrite ?andb_false_r in C; try discriminate.
  rewrite !andb_true_iff, !Z.leb_le, Z.ltb_lt, !Z.eqb_eq, negb_true_iff,
    Z.eqb_neq in C.
  destruct C as ((((((? & ?) & ?) & ?) & ?) & ->) & ?).
  exists p, f. repeat split; assumption.
Qed.

(** The normalisation of the gap in the code is the mathematical modulo. *)
Lemma gap_normalised (g : Z) : Z.rem (Z.rem g 65 + 65) 65 = g mod 65.
Proof.
  pose proof (Z.rem_bound_abs g 65 ltac:(lia)) as B.
  pose proof (Z.quot_rem' g 65) as Q.
  rewrite Z.rem_mod_nonneg by lia.
  replace (Z.rem g 65 + 65) with (g + (1 - g ÷ 65) * 65) by lia.
  apply Z_mod_plus_full.
Qed.

Lemma last_default (l : jsstring) :
  forall x d d' : Z, last (x :: l) d = last (x :: l) d'.
Proof.
  induction l as [|y l IH]; intros x d d'; [reflexivity|].
  change (last (x :: y :: l) d) with (last (y :: l) d).
  change (last (x :: y :: l) d') with (last (y :: l) d').
  apply IH.
Qed.

Lemma last_cons (c : Z) (l : jsstring) (d : Z) : last (c :: l) d = last l c.
Proof.
  destruct l as [|x l]; [reflexivity|].
  change (last (c :: x :: l) d) with (last (x :: l) d).
  apply last_default.
Qed.

Lemma last_in_alphabet (l : jsstring) (d : Z) :
  forallb in_alphabet l = true -> in_alphabet d = true ->
  in_alphabet (last l d) = true.
Proof.
  revert d. induction l as [|x l IH]; intros d Hl Hd; [exact Hd|].
  cbn [forallb] in Hl. apply andb_true_iff in Hl. destruct Hl as [Hx Hl].
  rewrite last_cons. apply IH; assumption.
Qed.

(** One nibble: the inner loop accumulates the weighted sum of the gaps. *)
Lemma nibble_for_row_sum (consumed : jsstring) :
  forall (weights done : list Z) (prev v : Z),
    length consumed = length weights ->
    forallb in_alphabet consumed = true -> in_alphabet prev = true ->
    exists total : Z,
      row_sum weights consumed prev = Some total
      /\ nibble_for consumed (done ++ weights) (length done) [prev] (Num v)
         = (Num (v + total), [last consumed prev]).
Proof.
  induction consumed as [|c cs IH]; intros weights done prev v L Hc Hp.
  - destruct weights; [|discriminate]. exists 0. split; [reflexivity|].
    simpl. rewrite Z.add_0_r. reflexivity.
  - destruct weights as [|w ws]; [discriminate|].
    cbn [forallb] in Hc. apply andb_true_iff in Hc. destruct Hc as [Hc Hcs].
    destruct (alphabet_char c Hc) as (pc & fc & Pc & Bc & Ic & _).
    destruct (alphabet_char prev Hp) as (pp & fp & Pp & Bp & Ip & _).
    destruct (IH ws (done ++ [w]) c
                (v + ((pc - pp) mod 65 - 1) * w)
                ltac:(simpl in L; lia) Hcs Hc) as (total & R & N).
    exists (w * ((pc - pp) mod 65 - 1) + total). split.
    + cbn [row_sum]. unfold gap. rewrite Pc, Pp, R. reflexivity.
    + cbn [nibble_for]. rewrite Ic, Ip.
      change JUNIPER_KEYS_LENGTH with 65. rewrite gap_normalised.
      unfold weight_at. rewrite nth_error_app2, Nat.sub_diag by lia.
      cbn [nth_error num_mul num_add].
      rewrite <- app_assoc in N. cbn [app] in N.
      rewrite length_app, Nat.add_1_r in N. rewrite N, last_cons.
      do 2 f_equal. lia.
Qed.

Lemma row_sum_length (weights : list Z) :
  forall (consumed : jsstring) (prev v : Z),
    row_sum weights consumed prev = Some v -> length consumed = length weights.
Proof.
  induction weights as [|w ws IH]; intros [|c cs] prev v H;
    try discriminate; [reflexivity|].
  cbn [row_sum] in H. destruct (gap c prev); [|discriminate].
  destruct (row_sum ws cs c) as [v'|] eqn:E; [|discriminate].
  simpl. f_equal. eapply IH, E.
Qed.

Lemma forallb_split (f : Z -> bool) (n : nat) (l : jsstring) :
  forallb f l = true ->
  forallb f (firstn n l) = true /\ forallb f (skipn n l) = true.
Proof.
  intros H. rewrite <- (firstn_skipn n l), forallb_app in H.
  apply andb_true_iff in H. exact H.
Qed.

(** The loop on data of the alphabet, whenever the reference is defined on
    them, emits the code units of the reference sums. *)
Lemma juniper_while_reference (budget : nat) :
  forall (data : jsstring) (prev : Z) (decrypted : jsstring) (sums : list Z),
    forallb in_alphabet data = true -> in_alphabet prev = true ->
    reference_rows budget (length decrypted) prev data = Some sums ->
    juniper_while budget data [prev] decrypted
    = Done (decrypted ++ map code_unit sums).
Proof.
  induction budget as [|budget IH]; intros data prev decrypted sums Hd Hp R.
  - destruct data; [|discriminate]. injection R as <-.
    simpl. rewrite app_nil_r. reflexivity.
  - rewrite juniper_while_step. destruct data as [|c data'].
    + injection R as <-. simpl. rewrite app_nil_r. reflexivity.
    + replace (0 <? len (c :: data')) with true
        by (symmetry; apply Z.ltb_lt; unfold len; simpl; lia).
      destruct (encoding_row decrypted) as [-> B].
      cbn [reference_rows] in R.
      set (weights := row (length decrypted)) in *.
      set (data := c :: data') in *.
      destruct (row_sum weights (firstn (length weights) data) prev)
        as [v|] eqn:E; [|discriminate].
      destruct (reference_rows budget (S (length decrypted))
                  (last (firstn (length weights) data) prev)
                  (skipn (length weights) data)) as [sums'|] eqn:R';
        [|discriminate].
      injection R as <-.
      destruct (forallb_split in_alphabet (length weights) data Hd) as [Hf Hs].
      rewrite substring_spec, substring_from_spec by lia.
      rewrite Z.sub_0_r, Nat2Z.id. change (Z.to_nat 0) with 0%nat.
      cbn [skipn].
      destruct (nibble_for_row_sum _ weights [] prev 0
                  (row_sum_length _ _ _ _ E) Hf Hp) as (total & E' & N).
      rewrite E in E'. injection E' as <-.
      cbn [app length] in N. rewrite N. cbn [fst snd].
      rewrite (IH _ _ _ sums' Hs (last_in_alphabet _ _ Hf Hp)).
      * rewrite <- app_assoc. reflexivity.
      * rewrite length_app, Nat.add_1_r. exact R'.
Qed.

(** *** Alignment with the row table *)

Lemma row_length (k : nat) : (2 <= length (row k) <= 4)%nat.
Proof.
  unfold row. pose proof (Nat.mod_upper_bound k 7 ltac:(lia)) as B.
  destruct (k mod 7)%nat as [|[|[|[|[|[|[|m]]]]]]]; simpl; lia.
Qed.

Lemma rows_total_mono (a b : nat) : (rows_total a <= rows_total (a + b))%nat.
Proof.
  induction b as [|b IH]; [rewrite Nat.add_0_r; lia|].
  rewrite Nat.add_succ_r. simpl. lia.
Qed.

(** On data of the alphabet that [n] further rows consume exactly, the
    reference is defined. *)
Lemma reference_rows_aligned (n : nat) :
  forall (k : nat) (data : jsstring) (prev : Z) (budget : nat),
    (length data + rows_total k = rows_total (k + n))%nat ->
    forallb in_alphabet data = true -> in_alphabet prev = true ->
    (length data <= budget)%nat ->
    exists sums : list Z, reference_rows budget k prev data = Some sums.
Proof.
  induction n as [|n IH]; intros k data prev budget L Hd Hp Hb.
  - rewrite Nat.add_0_r in L. destruct data; [|simpl in L; lia].
    exists []. destruct budget; reflexivity.
  - pose proof (row_length k) as B.
    pose proof (rows_total_mono (S k) n) as M.
    rewrite Nat.add_succ_r in L. cbn [Nat.add rows_total] in M, L.
    destruct data as [|c data']; [simpl in L; lia|].
    destruct budget as [|budget]; [simpl in Hb; lia|].
    cbn [reference_rows]. set (data := c :: data') in *.
    destruct (forallb_split in_alphabet (length (row k)) data Hd) as [Hf Hs].
    assert (Lf : length (firstn (length (row k)) data) = length (row k))
      by (apply firstn_length_le; lia).
    destruct (nibble_for_row_sum _ (row k) [] prev 0 Lf Hf Hp)
      as (total & -> & _).
    destruct (IH (S k) (skipn (length (row k)) data)
                (last (firstn (length (row k)) data) prev) budget)
      as [sums ->].
    + rewrite length_skipn. cbn [Nat.add rows_total]. lia.
    + exact Hs.
    + apply last_in_alphabet; assumption.
    + rewrite length_skipn. lia.
    + exists (total :: sums). reflexivity.
Qed.

Lemma aligned_rows (data : jsstring) :
  aligned data = true -> exists n : nat, rows_total n = length data.
Proof.
  unfold aligned. intros H. apply existsb_exists in H.
  destruct H as (n & _ & E%Nat.eqb_eq). exists n. exact E.
Qed.

(** *** The bounds of a row sum *)

Lemma gap_bound (c prev g : Z) : gap c prev = Some g -> -1 <= g <= 63.
Proof.
  unfold gap. destruct (pos c) as [pc|]; [|discriminate].
  destruct (pos prev) as [pp|]; [|discriminate].
  intros E. injection E as <-.
  pose proof (Z.mod_pos_bound (pc - pp) 65 ltac:(lia)). lia.
Qed.

Lemma row_sum_bound (weights : list Z) :
  forall (consumed : jsstring) (prev v : Z),
    Forall (fun w => 0 <= w) weights ->
    row_sum weights consumed prev = Some v ->
    - weights_total weights <= v <= 63 * weights_total weights.
Proof.
  induction weights as [|w ws IH]; intros [|c cs] prev v Hw H;
    try discriminate.
  - injection H as <-. simpl. lia.
  - cbn [row_sum] in H. destruct (gap c prev) as [g|] eqn:G; [|discriminate].
    destruct (row_sum ws cs c) as [v'|] eqn:E; [|discriminate].
    injection H as <-. inversion Hw as [|? ? Hw1 Hw2]; subst.
    specialize (IH _ _ _ Hw2 E). apply gap_bound in G.
    cbn [weights_total fold_right]. fold (weights_total ws). nia.
Qed.

Lemma row_weights (k : nat) :
  Forall (fun w => 0 <= w) (row k) /\ weights_total (row k) <= 149.
Proof.
  unfold row. pose proof (Nat.mod_upper_bound k 7 ltac:(lia)) as B.
  destruct (k mod 7)%nat as [|[|[|[|[|[|[|m]]]]]]]; try lia;
    (split; [repeat constructor; lia|vm_compute; discriminate]).
Qed.

Lemma reference_rows_bound (budget : nat) :
  forall (k : nat) (prev : Z) (data : jsstring) (sums : list Z),
    reference_rows budget k prev data = Some sums ->
    Forall (fun v => -149 <= v <= 9387) sums.
Proof.
  induction budget as [|budget IH]; intros k prev data sums R.
  - destruct data; [|discriminate]. injection R as <-. constructor.
  - destruct data as [|c data']; [injection R as <-; constructor|].
    cbn [reference_rows] in R.
    destruct (row_sum _ _ prev) as [v|] eqn:E; [|discriminate].
    destruct (reference_rows budget _ _ _) as [sums'|] eqn:R'; [|discriminate].
    injection R as <-. constructor; [|eapply IH, R'].
    destruct (row_weights k) as [W T].
    pose proof (row_sum_bound _ _ _ _ W E). lia.
Qed.

(** *** The decoder on a remainder of the alphabet *)

Lemma startsWith_app (prefix rest : jsstring) :
  startsWith (prefix ++ rest) prefix = true.
Proof.
  induction prefix as [|x prefix IH]; [apply startsWith_nil|].
  cbn [app startsWith]. rewrite Z.eqb_refl. exact IH.
Qed.

Lemma split_go_plain (s : jsstring) :
  forall cur : jsstring,
    forallb in_alphabet s = true ->
    split_go (str "$9$") 0 cur s = [rev cur ++ s].
Proof.
  induction s as [|c s IH]; intros cur H.
  - simpl. rewrite app_nil_r. reflexivity.
  - cbn [forallb] in H. apply andb_true_iff in H. destruct H as [Hc Hs].
    destruct (alphabet_char c Hc) as (_ & _ & _ & _ & _ & _ & _ & _ & N).
    rewrite split_go_pass.
    + rewrite IH by exact Hs. cbn [rev]. rewrite <- app_assoc. reflexivity.
    + change (str "$9$") with [36; 57; 36]. cbn [startsWith].
      replace (36 =? c) with false by (symmetry; apply Z.eqb_neq; lia).
      reflexivity.
Qed.

Lemma decryptJuniperType9_reference (rest : jsstring) (sums : list Z) :
  forallb in_alphabet rest = true ->
  juniper_reference rest = Some sums ->
  decryptJuniperType9 (str "$9$" ++ rest)
  = Done (succeeded (VString (map code_unit sums))).
Proof.
  intros Ha R. unfold decryptJuniperType9.
  rewrite startsWith_app. cbn [negb].
  destruct (split_prefix rest) as (piece & pieces & -> & E).
  rewrite (split_go_plain rest [] Ha) in E. cbn [rev app] in E.
  injection E as -> ->. cbn [nth_error].
  destruct rest as [|first tail]; [discriminate|].
  unfold juniper_reference, data_after_skip in R.
  assert (Hf : in_alphabet first = true).
  { cbn [forallb] in Ha. apply andb_true_iff in Ha. apply Ha. }
  destruct (alphabet_char first Hf) as (p & f & _ & _ & _ & F & Bf & G & _).
  rewrite F in R.
  assert (C : charAt (first :: tail) (Num 0) = [first]) by reflexivity.
  rewrite C, G. cbn [plus_one].
  rewrite substring_from_spec by lia.
  destruct (forallb_split in_alphabet (Z.to_nat (f + 1)) _ Ha) as [_ Hs].
  rewrite (juniper_while_reference _ _ _ [] sums Hs Hf R).
  reflexivity.
Qed.

(** ** The claims on the Cisco Type 7 decoder *)

(** C2: on an even number of hex digits that starts with two decimal digits
    of salt [s], the decoder succeeds, and the [i]-th character of its
    plaintext is the byte of the [i]-th following pair XOR the code of
    [key[(i + s) mod 53]]; the route decodes 094F471A1A0A to cisco. *)
Theorem cisco_type7_decodes :
  (forall (d1 d2 : Z) (body : jsstring),
      is_decimal_digit d1 = true -> is_decimal_digit d2 = true ->
      forallb is_hex_digit body = true -> Nat.even (length body) = true ->
      exists plaintext : jsstring,
        decryptCiscoType7 (d1 :: d2 :: body)
        = Done (succeeded (VString plaintext))
        /\ length plaintext = Nat.div2 (length body)
        /\ forall i : nat,
            (i < length plaintext)%nat ->
            nth i plaintext 0
            = Z.lxor (pair_byte body i)
                (key_code ((Z.of_nat i + salt_of d1 d2) mod 53)))
  /\ (forall platform : jsstring -> jsstring + jsstring,
         password_decrypt_switch platform (str "cisco-type7")
           (str "094F471A1A0A")
         = Done (succeeded (VString (str "cisco")))).
Proof.
  split.
  - intros d1 d2 body H1 H2 Hb He.
    exists (type7_plain (salt_of d1 d2) 0 body).
    pose proof (even_length_half _ He) as L.
    split; [apply decryptCiscoType7_plain; assumption|].
    rewrite (type7_plain_length _ _ _ _ L). split; [reflexivity|].
    intros i Hi. rewrite (type7_plain_nth _ _ _ _ _ L Hi).
    do 3 f_equal. lia.
  - intros platform. vm_compute. reflexivity.
Qed.

Lemma cisco_type7_decodes_witness :
  exists plaintext : jsstring,
    decryptCiscoType7 (str "094F471A1A0A") = Done (succeeded (VString plaintext))
    /\ length plaintext = 5%nat
    /\ forall i : nat,
        (i < length plaintext)%nat ->
        nth i plaintext 0
        = Z.lxor (pair_byte (str "4F471A1A0A") i)
            (key_code ((Z.of_nat i + 9) mod 53)).
Proof.
  exact (proj1 cisco_type7_decodes 48 57 (str "4F471A1A0A")
           eq_refl eq_refl eq_refl eq_refl).
Defined.

(** C3, as the code has it: a text that is empty or holds a character
    outside 0-9, A-F, a-f is refused with the message of the format gate and
    no plaintext. *)
Theorem cisco_type7_rejects_non_hex (encrypted : jsstring) :
  encrypted = [] \/ existsb (fun c => negb (is_hex_digit c)) encrypted = true ->
  decryptCiscoType7 encrypted
  = Done (failed (str "Invalid Cisco Type 7 format")).
Proof.
  intros H. unfold decryptCiscoType7.
  assert (T : hex_test encrypted = false).
  { destruct H as [->|H]; [reflexivity|].
    destruct encrypted as [|c rest]; [reflexivity|].
    unfold hex_test. apply not_true_is_false. intros A.
    rewrite forallb_forall in A. apply existsb_exists in H.
    destruct H as (x & Hx & Hn). rewrite (A x Hx) in Hn. discriminate. }
  rewrite T. reflexivity.
Qed.

Lemma cisco_type7_rejects_non_hex_witness :
  decryptCiscoType7 (str "09ZZ")
  = Done (failed (str "Invalid Cisco Type 7 format")).
Proof.
  exact (cisco_type7_rejects_non_hex (str "09ZZ") (or_intror eq_refl)).
Defined.

(** C3 fails as stated: an odd number of hex digits, and hex digits whose
    first two are no decimal number, are decoded with success. *)
Lemma cisco_type7_accepts_odd_and_unsalted :
  hex_test (str "ABC") = true /\ Nat.even (length (str "ABC")) = false
  /\ decryptCiscoType7 (str "ABC") = Done (succeeded (VString (str "h")))
  /\ Nat.even (length (str "AB12")) = true
  /\ parseInt (substring (str "AB12") (Num 0) (Num 2)) 10 = NaN
  /\ decryptCiscoType7 (str "AB12") = Done (succeeded (VString (str "v"))).
Proof. vm_compute. repeat split. Qed.

(** C8: encoding a plaintext of characters below 256 under a salt of two
    decimal digits and decoding the result gives the plaintext back. *)
Theorem cisco_type7_round_trip (upper : bool) (s : Z) (plaintext : jsstring) :
  0 <= s < 100 -> forallb is_byte plaintext = true ->
  decryptCiscoType7 (cisco_type7_encode upper s plaintext)
  = Done (succeeded (VString plaintext)).
Proof.
  intros Hs Hp. unfold cisco_type7_encode. cbn [app].
  destruct (salt_digits_ok s Hs) as (D1 & D2 & E).
  destruct (cisco_encode_from_ok upper s plaintext 0 Hp) as (H1 & H2 & H3).
  rewrite decryptCiscoType7_plain by assumption.
  rewrite E, H3. reflexivity.
Qed.

Lemma cisco_type7_round_trip_witness :
  cisco_type7_encode true 9 (str "cisco") = str "094F471A1A0A"
  /\ decryptCiscoType7 (cisco_type7_encode true 9 (str "cisco"))
     = Done (succeeded (VString (str "cisco"))).
Proof.
  split; [reflexivity|].
  apply (cisco_type7_round_trip true 9 (str "cisco")); [lia|reflexivity].
Defined.

(** ** The claims on the Juniper Type 9 decoder *)

Example juniper_vector :
  decryptJuniperType9 (str "$9$ikqf") = Done (succeeded (VString (str "a"))).
Proof. vm_compute. reflexivity. Qed.

(** C1, as the code has it: on a non-empty remainder of the alphabet whose
    data align with the row table, the decoder succeeds with one character
    for each row of the reference algorithm, and the code of that character
    is the row's weighted sum of gaps reduced modulo 65536, which is the sum
    itself unless the sum is negative. *)
Theorem juniper_type9_matches_reference (rest : jsstring) :
  rest <> [] -> forallb in_alphabet rest = true ->
  aligned (data_after_skip rest) = true ->
  exists sums : list Z,
    juniper_reference rest = Some sums
    /\ decryptJuniperType9 (str "$9$" ++ rest)
       = Done (succeeded (VString (map code_unit sums)))
    /\ Forall (fun v => 0 <= v -> code_unit v = v) sums.
Proof.
  intros Hn Ha Hal.
  destruct rest as [|first tail]; [contradiction|].
  assert (Hf : in_alphabet first = true).
  { cbn [forallb] in Ha. apply andb_true_iff in Ha. apply Ha. }
  assert (Hd : forallb in_alphabet (data_after_skip (first :: tail)) = true).
  { unfold data_after_skip. destruct (family first); [|exact Ha].
    apply (forallb_split in_alphabet _ _ Ha). }
  destruct (aligned_rows _ Hal) as [n Hr].
  destruct (reference_rows_aligned n 0 (data_after_skip (first :: tail)) first
              (length (data_after_skip (first :: tail))))
    as [sums R]; auto; [cbn [rows_total Nat.add]; lia|].
  exists sums. split; [exact R|]. split.
  - apply decryptJuniperType9_reference; assumption.
  - apply reference_rows_bound in R.
    eapply Forall_impl; [|exact R]. cbv beta. intros v B P.
    unfold code_unit. apply Z.mod_small. lia.
Qed.

Lemma juniper_type9_matches_reference_witness :
  exists sums : list Z,
    juniper_reference (str "ikqf") = Some sums
    /\ decryptJuniperType9 (str "$9$ikqf")
       = Done (succeeded (VString (map code_unit sums)))
    /\ Forall (fun v => 0 <= v -> code_unit v = v) sums.
Proof.
  apply (juniper_type9_matches_reference (str "ikqf"));
    [discriminate|reflexivity|reflexivity].
Defined.

(** C1 fails as stated: where a character repeats the one before it the gap
    is -1, the sum of the row is negative, and the character emitted has the
    code of the sum modulo 65536, not the sum. *)
Lemma juniper_type9_negative_sum :
  forallb in_alphabet (str "iiii") = true
  /\ aligned (data_after_skip (str "iiii")) = true
  /\ juniper_reference (str "iiii") = Some [-37]
  /\ decryptJuniperType9 (str "$9$iiii") = Done (succeeded (VString [65499]))
  /\ decryptJuniperType9 (str "$9$iiii") <> Done (succeeded (VString [-37])).
Proof. vm_compute. repeat split. discriminate. Qed.

(** *** The decoder on any remainder *)

Lemma own_property_In (o : object) (k : jsstring) (v : value) :
  own_property o k = Some v -> In (k, v) o.
Proof.
  induction o as [|[k' v'] o IH]; [discriminate|].
  cbn [own_property]. destruct (string_eqb k' k) eqn:E.
  - apply string_eqb_eq in E. subst k'. intros Q. injection Q as ->.
    left. reflexivity.
  - intros Q. right. apply IH, Q.
Qed.

Lemma juniper_piece (rest piece : jsstring) (pieces : list jsstring) :
  split_go (str "$9$") 0 [] rest = piece :: pieces ->
  nth_error (split (str "$9$" ++ rest) (str "$9$")) 1 = Some piece.
Proof.
  intros H. destruct (split_prefix rest) as (p & ps & -> & E).
  rewrite H in E. injection E as -> ->. reflexivity.
Qed.

Lemma indexOf_from_absent (s : jsstring) :
  forall c p : Z,
    existsb (Z.eqb c) s = false -> indexOf_from s [c] p = -1.
Proof.
  induction s as [|x s IH]; intros c p H; [reflexivity|].
  cbn [existsb] in H. apply orb_false_iff in H. destruct H as [Hx Hs].
  cbn [indexOf_from startsWith]. rewrite Hx. cbn [andb].
  apply IH, Hs.
Qed.

Lemma position_from_absent (a : jsstring) :
  forall c p : Z, existsb (Z.eqb c) a = false -> position_from a c p = None.
Proof.
  induction a as [|x a IH]; intros c p H; [reflexivity|].
  cbn [existsb] in H. apply orb_false_iff in H. destruct H as [Hx Ha].
  cbn [position_from]. rewrite Z.eqb_sym, Hx. apply IH, Ha.
Qed.

(** [indexOf] on one character: its position in the alphabet, or -1. *)
Lemma indexOf_position (c : Z) :
  indexOf JUNIPER_KEYS_STRING [c] = position_or_minus_one c.
Proof.
  unfold position_or_minus_one. destruct (in_alphabet c) eqn:A.
  - destruct (alphabet_char c A) as (p & f & -> & _ & I & _). exact I.
  - unfold pos. rewrite (position_from_absent _ _ _ A).
    apply indexOf_from_absent. exact A.
Qed.

(** A character outside the alphabet has no family: the lookup in
    [JUNIPER_CHARACTER_KEYS] gives [undefined]. *)
Lemma no_family (c : Z) :
  in_alphabet c = false ->
  family c = None /\ get_property JUNIPER_CHARACTER_KEYS [c] = VUndefined.
Proof.
  intros A. split.
  - unfold in_alphabet, alphabet, alphabet_parts in A.
    cbn [map concat] in A. rewrite !existsb_app, !orb_false_iff in A.
    destruct A as (A1 & A2 & A3 & A4 & _).
    unfold family, alphabet_parts. cbn [map part_index].
    rewrite A1, A2, A3, A4. reflexivity.
  - unfold get_property.
    destruct (own_property JUNIPER_CHARACTER_KEYS [c]) as [v|] eqn:E.
    + exfalso. apply own_property_In in E.
      assert (C : forallb (fun entry =>
                    match fst entry with
                    | [x] => in_alphabet x
                    | _ => false
                    end) JUNIPER_CHARACTER_KEYS = true)
        by (vm_compute; reflexivity).
      rewrite forallb_forall in C. specialize (C _ E). cbn [fst] in C.
      rewrite A in C. discriminate.
    + unfold inherited_property.
      destruct (existsb (string_eqb [c]) prototype_methods) eqn:P.
      * exfalso. apply existsb_exists in P. destruct P as (name & I & Q).
        apply string_eqb_eq in Q. subst name.
        assert (C : forallb (fun n => negb (length n =? 1)%nat)
                      prototype_methods = true) by (vm_compute; reflexivity).
        rewrite forallb_forall in C. specialize (C _ I). discriminate C.
      * destruct (string_eqb [c] (str "__proto__")) eqn:Q; [|reflexivity].
        apply string_eqb_eq in Q. apply (f_equal (@length Z)) in Q.
        discriminate Q.
Qed.

(** One nibble of any characters, as many as the row has weights or fewer:
    the inner loop accumulates the weighted sum of the gaps. *)
Lemma nibble_for_unchecked (consumed : jsstring) :
  forall (weights done : list Z) (prev v : Z),
    (length consumed <= length weights)%nat ->
    nibble_for consumed (done ++ weights) (length done) [prev] (Num v)
    = (Num (v + row_sum_unchecked weights consumed prev),
       [last consumed prev]).
Proof.
  induction consumed as [|c cs IH]; intros weights done prev v L.
  - destruct weights; cbn [nibble_for row_sum_unchecked last];
      rewrite Z.add_0_r; reflexivity.
  - destruct weights as [|w ws]; [simpl in L; lia|].
    cbn [nibble_for row_sum_unchecked]. rewrite !indexOf_position.
    change JUNIPER_KEYS_LENGTH with 65. rewrite gap_normalised.
    unfold weight_at. rewrite nth_error_app2, Nat.sub_diag by lia.
    cbn [nth_error num_mul num_add].
    specialize (IH ws (done ++ [w]) c
                  (v + ((position_or_minus_one c - position_or_minus_one prev)
                          mod 65 - 1) * w)
                  ltac:(simpl in L; lia)).
    rewrite <- app_assoc in IH. cbn [app] in IH.
    rewrite length_app, Nat.add_1_r in IH. rewrite IH, last_cons.
    unfold gap_unchecked. do 2 f_equal. lia.
Qed.

(** The loop on any data emits the code units of the sums of their rows. *)
Lemma juniper_while_unchecked (budget : nat) :
  forall (data : jsstring) (prev : Z) (decrypted : jsstring),
    (length data <= budget)%nat ->
    juniper_while budget data [prev] decrypted
    = Done (decrypted
            ++ map code_unit
                 (rows_unchecked budget (length decrypted) prev data)).
Proof.
  induction budget as [|budget IH]; intros data prev decrypted Hb.
  - destruct data; [|simpl in Hb; lia]. simpl. rewrite app_nil_r. reflexivity.
  - rewrite juniper_while_step. destruct data as [|c data'].
    + simpl. rewrite app_nil_r. reflexivity.
    + replace (0 <? len (c :: data')) with true
        by (symmetry; apply Z.ltb_lt; unfold len; simpl; lia).
      destruct (encoding_row decrypted) as [-> B].
      cbn [rows_unchecked].
      set (weights := row (length decrypted)) in *.
      set (data := c :: data') in *.
      rewrite substring_spec, substring_from_spec by lia.
      rewrite Z.sub_0_r, Nat2Z.id. change (Z.to_nat 0) with 0%nat.
      cbn [skipn].
      pose proof (nibble_for_unchecked (firstn (length weights) data)
                    weights [] prev 0 (firstn_le_length _ _)) as N.
      cbn [app length] in N. rewrite N. cbn [fst snd].
      rewrite IH.
      * rewrite <- app_assoc, length_app, Nat.add_1_r. reflexivity.
      * rewrite length_skipn. subst data weights.
        change (length (c :: data')) with (S (length data')) in Hb |- *. lia.
Qed.

(** [split] gives, after the empty piece before the prefix, what stands
    before the next marker. *)
Lemma split_go_before_marker (s : jsstring) :
  forall cur : jsstring,
    exists pieces : list jsstring,
      split_go (str "$9$") 0 cur s = (rev cur ++ before_marker s) :: pieces.
Proof.
  induction s as [|c s IH]; intros cur.
  - exists []. simpl. rewrite app_nil_r. reflexivity.
  - cbn [before_marker]. destruct (startsWith (c :: s) (str "$9$")) eqn:E.
    + rewrite (split_go_match _ _ _ _ E). rewrite app_nil_r. eauto.
    + rewrite (split_go_pass _ _ _ _ E). destruct (IH (c :: cur)) as [ps ->].
      exists ps. cbn [rev]. rewrite <- app_assoc. reflexivity.
Qed.

(** Past the prefix the decoder succeeds on every remainder, with the code
    units of the sums computed without any check against the alphabet. *)
Lemma decryptJuniperType9_unchecked (rest : jsstring) :
  decryptJuniperType9 (str "$9$" ++ rest)
  = Done (succeeded
            (VString (map code_unit (sums_unchecked (before_marker rest))))).
Proof.
  unfold decryptJuniperType9. rewrite startsWith_app. cbn [negb].
  destruct (split_go_before_marker rest []) as [pieces S].
  cbn [rev app] in S. rewrite (juniper_piece _ _ _ S).
  destruct (before_marker rest) as [|first tail]; [reflexivity|].
  assert (C : charAt (first :: tail) (Num 0) = [first]) by reflexivity.
  rewrite C. unfold sums_unchecked, data_after_skip.
  destruct (in_alphabet first) eqn:A.
  - destruct (alphabet_char first A) as (p & f & _ & _ & _ & -> & Bf & -> & _).
    cbn [plus_one]. rewrite substring_from_spec by lia.
    rewrite juniper_while_unchecked by lia. reflexivity.
  - destruct (no_family first A) as [-> ->]. cbn [plus_one].
    rewrite substring_from_NaN.
    rewrite juniper_while_unchecked by lia. reflexivity.
Qed.

(** C5, as the code has it: a remainder with characters outside the alphabet
    is decoded with success all the same. No character is checked against
    the alphabet: the plaintext is made of the sums of the rows, modulo
    65536, in which a character outside the alphabet has the position -1,
    the value of [indexOf] for it. *)
Theorem juniper_type9_outside_alphabet (rest : jsstring) :
  existsb (fun c => negb (in_alphabet c)) rest = true ->
  decryptJuniperType9 (str "$9$" ++ rest)
  = Done (succeeded
            (VString (map code_unit (sums_unchecked (before_marker rest)))))
  /\ exists c : Z,
      In c rest /\ in_alphabet c = false
      /\ indexOf JUNIPER_KEYS_STRING [c] = -1
      /\ position_or_minus_one c = -1.
Proof.
  intros H. split; [apply decryptJuniperType9_unchecked|].
  apply existsb_exists in H. destruct H as (c & I & A).
  apply negb_true_iff in A. exists c.
  split; [exact I|]. split; [exact A|].
  rewrite indexOf_position. unfold position_or_minus_one, pos.
  rewrite (position_from_absent _ _ _ A). split; reflexivity.
Qed.

Lemma juniper_type9_outside_alphabet_witness :
  sums_unchecked (before_marker (str "i!Qz")) = [8]
  /\ decryptJuniperType9 (str "$9$" ++ str "i!Qz")
     = Done (succeeded
               (VString
                  (map code_unit (sums_unchecked (before_marker (str "i!Qz"))))))
  /\ exists c : Z,
      In c (str "i!Qz") /\ in_alphabet c = false
      /\ indexOf JUNIPER_KEYS_STRING [c] = -1
      /\ position_or_minus_one c = -1.
Proof.
  split; [reflexivity|].
  exact (juniper_type9_outside_alphabet (str "i!Qz") eq_refl).
Defined.

(** C5 fails as stated: a remainder of one character outside the alphabet is
    decoded with success, to the character of code 65535; and a character
    outside the alphabet among the data counts with the position -1: after
    the i of position 55 it adds the gap 8 to the sum, where the position 0
    would add 9. *)
Lemma juniper_type9_accepts_outside_alphabet :
  in_alphabet (code "!") = false
  /\ decryptJuniperType9 (str "$9$!") = Done (succeeded (VString [65535]))
  /\ decryptJuniperType9 (str "$9$i!Qz") = Done (succeeded (VString [8]))
  /\ pos (code "i") = Some 55
  /\ (-1 - 55) mod 65 - 1 = 8.
Proof. vm_compute. repeat split. Qed.

(** C10: on the bare prefix the decoder succeeds with the empty plaintext;
    the first character is the empty string, it has no family, the skip is
    NaN and the loop does not run. *)
Theorem juniper_type9_bare_prefix :
  decryptJuniperType9 (str "$9$") = Done (succeeded (VString []))
  /\ nth_error (split (str "$9$") (str "$9$")) 1 = Some []
  /\ charAt [] (Num 0) = []
  /\ get_property JUNIPER_CHARACTER_KEYS [] = VUndefined
  /\ plus_one VUndefined = NaN
  /\ substring_from [] NaN = [].
Proof. vm_compute. repeat split. Qed.

(** ** The claims on the lookup and on Base64 *)

Lemma checkMD5Hash_known (hash : jsstring) (plaintext : value) :
  own_property knownHashes (toLowerCase hash) = Some plaintext ->
  checkMD5Hash hash = Done (succeeded plaintext).
Proof.
  intros H. unfold checkMD5Hash, get_property. rewrite H.
  unfold knownHashes in H. cbn [own_property] in H.
  repeat match type of H with
         | (if ?b then _ else _) = _ =>
             destruct b; [injection H as <-; reflexivity|]
         end.
  discriminate.
Qed.

Lemma checkMD5Hash_unknown (hash : jsstring) :
  own_property knownHashes (toLowerCase hash) = None ->
  inherited_property (toLowerCase hash) = VUndefined ->
  checkMD5Hash hash
  = Done (failed (str "Hash not found in known passwords database")).
Proof.
  intros H I. unfold checkMD5Hash, get_property. rewrite H, I. reflexivity.
Qed.

Example md5_vectors :
  checkMD5Hash (str "5f4dcc3b5aa765d61d8327deb882cf99")
  = Done (succeeded (VString (str "password")))
  /\ checkMD5Hash (str "5F4DCC3B5AA765D61D8327DEB882CF99")
     = Done (succeeded (VString (str "password")))
  /\ checkMD5Hash (str "0000000000000000000000000000000")
     = Done (failed (str "Hash not found in known passwords database")).
Proof. vm_compute. repeat split. Qed.

(** C9 at the input constructor: the text is no digest of the table, yet
    the lookup finds the property that every object inherits and reports a
    success whose plaintext is a function. *)
Theorem checkMD5Hash_inherited_property :
  own_property knownHashes (toLowerCase (str "constructor")) = None
  /\ checkMD5Hash (str "constructor")
     = Done (succeeded (VFunction (str "constructor")))
  /\ checkMD5Hash (str "__proto__") = Done (succeeded VObjectPrototype).
Proof. vm_compute. repeat split. Qed.

(** C4 on the code: the decoder looks at no character of the text. It
    reports a success with whatever the platform read out of the text, and
    the invalid format only where the platform raised an error. *)
Theorem decodeBase64_rejects_only_on_error
  (platform : jsstring -> jsstring + jsstring) (encoded : jsstring) :
  decodeBase64 platform encoded
  = match platform encoded with
    | inl text => Done (succeeded (VString text))
    | inr _ => Done (failed (str "Invalid Base64 format"))
    end.
Proof.
  unfold decodeBase64. destruct (platform encoded); reflexivity.
Qed.

(** ** The claims on the switch of the route *)

Lemma decryptCiscoType7_shape (encrypted : jsstring) :
  if hex_test encrypted
  then exists plaintext : jsstring,
      decryptCiscoType7 encrypted = Done (succeeded (VString plaintext))
  else decryptCiscoType7 encrypted
       = Done (failed (str "Invalid Cisco Type 7 format")).
Proof.
  unfold decryptCiscoType7. destruct (hex_test encrypted); [|reflexivity].
  cbn [negb]. rewrite cisco_for_pairs; [|lia|rewrite length_skipn; lia].
  eexists. reflexivity.
Qed.

Lemma decryptJuniperType9_shape (encryptedPassword : jsstring) :
  if startsWith encryptedPassword (str "$9$")
  then exists plaintext : jsstring,
      decryptJuniperType9 encryptedPassword
      = Done (succeeded (VString plaintext))
  else decryptJuniperType9 encryptedPassword
       = Done (failed (str "Not a valid Juniper Type 9 password")).
Proof.
  destruct (startsWith encryptedPassword (str "$9$")) eqn:E.
  - apply decryptJuniperType9_total, E.
  - unfold decryptJuniperType9. rewrite E. reflexivity.
Qed.

Lemma checkMD5Hash_shape (hash : jsstring) :
  (exists v : value, checkMD5Hash hash = Done (succeeded v))
  \/ checkMD5Hash hash
     = Done (failed (str "Hash not found in known passwords database")).
Proof.
  unfold checkMD5Hash.
  destruct (truthy (get_property knownHashes (toLowerCase hash)));
    [left; eexists; reflexivity|right; reflexivity].
Qed.

(** Every run of the switch ends with a result object of one of the two
    shapes, and with the refusal of the type for a name it does not know. *)
Lemma switch_shape (platform : jsstring -> jsstring + jsstring)
  (vendorType encryptedPassword : jsstring) :
  exists r : DecodeResult,
    password_decrypt_switch platform vendorType encryptedPassword = Done r
    /\ ((exists v : value, r = succeeded v)
        \/ (exists m : jsstring, r = failed m /\ m <> []))
    /\ (~ In vendorType vendor_types ->
        r = failed (str "Unsupported encryption type")).
Proof.
  unfold password_decrypt_switch, vendor_types. cbn [map In].
  destruct (string_eqb vendorType (str "cisco-type7")) eqn:E1.
  { apply string_eqb_eq in E1.
    pose proof (decryptCiscoType7_shape encryptedPassword) as H.
    destruct (hex_test encryptedPassword).
    - destruct H as [p ->]. eexists. split; [reflexivity|]. split; [eauto|].
      intros N. exfalso. apply N. auto.
    - rewrite H. eexists. split; [reflexivity|]. split.
      + right. eexists. split; [reflexivity|discriminate].
      + intros N. exfalso. apply N. auto. }
  destruct (string_eqb vendorType (str "juniper-type9")) eqn:E2.
  { apply string_eqb_eq in E2.
    pose proof (decryptJuniperType9_shape encryptedPassword) as H.
    destruct (startsWith encryptedPassword (str "$9$")).
    - destruct H as [p ->]. eexists. split; [reflexivity|]. split; [eauto|].
      intros N. exfalso. apply N. auto.
    - rewrite H. eexists. split; [reflexivity|]. split.
      + right. eexists. split; [reflexivity|discriminate].
      + intros N. exfalso. apply N. auto. }
  destruct (string_eqb vendorType (str "base64")) eqn:E3.
  { apply string_eqb_eq in E3. unfold decodeBase64.
    destruct (platform encryptedPassword) as [text|e];
      (eexists; split; [reflexivity|]; split;
       [|intros N; exfalso; apply N; auto]).
    - eauto.
    - right. eexists. split; [reflexivity|discriminate]. }
  destruct (string_eqb vendorType (str "generic-md5")) eqn:E4.
  { apply string_eqb_eq in E4.
    destruct (checkMD5Hash_shape encryptedPassword) as [[v ->]| ->];
      (eexists; split; [reflexivity|]; split;
       [|intros N; exfalso; apply N; auto 6]).
    - eauto.
    - right. eexists. split; [reflexivity|discriminate]. }
  eexists. split; [reflexivity|]. split; [|reflexivity].
  right. eexists. split; [reflexivity|discriminate].
Qed.

(** C6, as the code has it: for every type and every text the switch ends
    with a result object and raises nothing; a failure carries a message
    that is not empty; a type outside the four names is refused as an
    unsupported encryption type; the Cisco decoder refuses a text that fails
    its hex test and the Juniper decoder one without the prefix. *)
Theorem switch_returns_result (platform : jsstring -> jsstring + jsstring)
  (vendorType encryptedPassword : jsstring) :
  exists r : DecodeResult,
    password_decrypt_switch platform vendorType encryptedPassword = Done r
    /\ (success r = false -> exists m : jsstring, message r = Some m /\ m <> [])
    /\ (~ In vendorType vendor_types ->
        r = failed (str "Unsupported encryption type"))
    /\ (vendorType = str "cisco-type7" -> hex_test encryptedPassword = false ->
        r = failed (str "Invalid Cisco Type 7 format"))
    /\ (vendorType = str "juniper-type9" ->
        startsWith encryptedPassword (str "$9$") = false ->
        r = failed (str "Not a valid Juniper Type 9 password")).
Proof.
  destruct (switch_shape platform vendorType encryptedPassword)
    as (r & E & S & U).
  exists r. split; [exact E|]. split; [|split; [exact U|split]].
  - intros F. destruct S as [[v ->]|(m & -> & N)]; [discriminate|].
    exists m. split; [reflexivity|exact N].
  - intros -> T.
    pose proof (decryptCiscoType7_shape encryptedPassword) as H.
    rewrite T in H. change (password_decrypt_switch platform
      (str "cisco-type7") encryptedPassword)
      with (decryptCiscoType7 encryptedPassword) in E.
    congruence.
  - intros -> T.
    pose proof (decryptJuniperType9_shape encryptedPassword) as H.
    rewrite T in H. change (password_decrypt_switch platform
      (str "juniper-type9") encryptedPassword)
      with (decryptJuniperType9 encryptedPassword) in E.
    congruence.
Qed.

(** C6 fails as stated: an odd number of hex digits, malformed for the
    Cisco scheme, is decoded with success, and the refusal of an unknown
    type reads otherwise than the claim has it. *)
Lemma switch_accepts_malformed_text :
  (forall platform : jsstring -> jsstring + jsstring,
      password_decrypt_switch platform (str "cisco-type7") (str "ABC")
      = Done (succeeded (VString (str "h"))))
  /\ (forall platform : jsstring -> jsstring + jsstring,
         password_decrypt_switch platform (str "rot13") (str "ABC")
         = Done (failed (str "Unsupported encryption type")))
  /\ str "Unsupported encryption type" <> str "unsupported scheme".
Proof.
  split; [|split].
  - intros platform. vm_compute. reflexivity.
  - intros platform. vm_compute. reflexivity.
  - vm_compute. discriminate.
Qed.

(** ** The route of the password decrypt tool *)

(** The messages with which the switch can refuse a text. *)
Lemma switch_messages (platform : jsstring -> jsstring + jsstring)
  (vendorType encryptedPassword : jsstring) :
  exists r : DecodeResult,
    password_decrypt_switch platform vendorType encryptedPassword = Done r
    /\ ((exists v : value, r = succeeded v)
        \/ (exists m : jsstring,
               r = failed m
               /\ In m (map str
                          ["Invalid Cisco Type 7 format";
                           "Not a valid Juniper Type 9 password";
                           "Invalid Base64 format";
                           "Hash not found in known passwords database";
                           "Unsupported encryption type"]%string))).
Proof.
  unfold password_decrypt_switch. cbn [map In].
  destruct (string_eqb vendorType (str "cisco-type7")).
  { pose proof (decryptCiscoType7_shape encryptedPassword) as H.
    destruct (hex_test encryptedPassword).
    - destruct H as [p ->]. eauto.
    - rewrite H. eauto 8. }
  destruct (string_eqb vendorType (str "juniper-type9")).
  { pose proof (decryptJuniperType9_shape encryptedPassword) as H.
    destruct (startsWith encryptedPassword (str "$9$")).
    - destruct H as [p ->]. eauto.
    - rewrite H. eauto 8. }
  destruct (string_eqb vendorType (str "base64")).
  { unfold decodeBase64.
    destruct (platform encryptedPassword); cbn [bind try_catch]; eauto 9. }
  destruct (string_eqb vendorType (str "generic-md5")).
  { destruct (checkMD5Hash_shape encryptedPassword) as [[v ->]| ->]; eauto 10. }
  eauto 12.
Qed.

(** X1: the handler answers a request with string fields with status 400
    exactly when a field is absent or empty, the encrypted password being
    looked at first; otherwise the switch is run on the two fields and ends
    with a result object, from which the answer and the log entry are
    built: the success flag as it is, the two fields as they came,
    [decrypted] or null, the message or "Decryption successful", and as
    logged error the message of a failure. It never answers with status
    500, and every failure it logs carries an error message. *)
Theorem route_never_fails (platform : jsstring -> jsstring + jsstring)
  (encryptedPassword vendorType : option jsstring) :
  exists (log : UsageLog) (response : Response),
    password_decrypt_route platform encryptedPassword vendorType
    = Done (log, response)
    /\ (forall e m : jsstring, response <> ServerError e m)
    /\ ((exists e : jsstring, response = BadRequest e)
        <-> missing encryptedPassword = true \/ missing vendorType = true)
    /\ (missing encryptedPassword = true ->
        response = BadRequest (str "Encrypted password is required")
        /\ log = mkLog false (Some (str "Missing encrypted password")))
    /\ (missing encryptedPassword = false -> missing vendorType = true ->
        response = BadRequest (str "Vendor/encryption type is required")
        /\ log = mkLog false (Some (str "Missing vendor type")))
    /\ (forall text type : jsstring,
           encryptedPassword = Some text -> vendorType = Some type ->
           text <> [] -> type <> [] ->
           exists r : DecodeResult,
             password_decrypt_switch platform type text = Done r
             /\ response
                = Answer (success r)
                    (mkData text (decrypted_or_null (decrypted r)) type
                       (message_or_default (message r)))
             /\ log = mkLog (success r)
                        (if success r then None else message r))
    /\ (logged_success log = false -> logged_error log <> None).
Proof.
  unfold password_decrypt_route.
  destruct encryptedPassword as [[|c text]|].
  - do 2 eexists. split; [reflexivity|]. cbn [missing].
    repeat split; eauto; try discriminate.
    intros text type E. injection E as <-. intros _ N. contradiction.
  - destruct vendorType as [[|d type]|].
    + do 2 eexists. split; [reflexivity|]. cbn [missing].
      repeat split; eauto; try discriminate.
      intros text' type' _ E. injection E as <-. intros _ N. contradiction.
    + destruct (switch_shape platform (d :: type) (c :: text))
        as (r & R & S & _).
      rewrite R. cbn [bind try_catch]. do 2 eexists. split; [reflexivity|].
      cbn [missing]. split; [discriminate|]. split; [|split; [|split; [|split]]].
      * split; [intros [e E]; discriminate|intros [H|H]; discriminate].
      * discriminate.
      * discriminate.
      * intros text' type' E1 E2 _ _. injection E1 as <-. injection E2 as <-.
        exists r. split; [exact R|]. split; reflexivity.
      * cbn [logged_success logged_error]. intros F. rewrite F.
        destruct S as [[v ->]|(m & -> & _)]; discriminate.
    + do 2 eexists. split; [reflexivity|]. cbn [missing].
      repeat split; eauto; try discriminate.
  - do 2 eexists. split; [reflexivity|]. cbn [missing].
    repeat split; eauto; try discriminate.
Qed.

(** X2: in an answer of the switch, a success carries the message
    "Decryption successful" and logs no error; a failure carries a null
    [decryptedPassword] and one of the five messages of the decoders and of
    the switch, which is also the error logged. *)
Theorem route_answer_shape (platform : jsstring -> jsstring + jsstring)
  (encryptedPassword vendorType : jsstring) :
  encryptedPassword <> [] -> vendorType <> [] ->
  exists (ok : bool) (plain : option value) (text : jsstring),
    password_decrypt_route platform (Some encryptedPassword) (Some vendorType)
    = Done (mkLog ok (if ok then None else Some text),
            Answer ok (mkData encryptedPassword plain vendorType text))
    /\ (ok = true -> text = str "Decryption successful")
    /\ (ok = false ->
        plain = None
        /\ In text (map str
                      ["Invalid Cisco Type 7 format";
                       "Not a valid Juniper Type 9 password";
                       "Invalid Base64 format";
                       "Hash not found in known passwords database";
                       "Unsupported encryption type"]%string)).
Proof.
  intros He Hv. unfold password_decrypt_route.
  destruct encryptedPassword as [|c text]; [contradiction|].
  destruct vendorType as [|d type]; [contradiction|].
  destruct (switch_messages platform (d :: type) (c :: text))
    as (r & -> & [[v ->]|(m & -> & I)]); cbn [bind try_catch].
  - exists true, (decrypted_or_null (Some v)), (str "Decryption successful").
    split; [reflexivity|]. split; [reflexivity|discriminate].
  - exists false, None, m. split.
    + cbn [success message decrypted failed decrypted_or_null].
      destruct m as [|x m]; [|reflexivity].
      exfalso. cbn [map In] in I.
      repeat (destruct I as [I|I]; [discriminate|]). contradiction.
    + split; [discriminate|]. intros _. split; [reflexivity|exact I].
Qed.

Lemma route_answer_shape_witness :
  exists (ok : bool) (plain : option value) (text : jsstring),
    password_decrypt_route (fun s => inl s) (Some (str "094F471A1A0A"))
      (Some (str "cisco-type7"))
    = Done (mkLog ok (if ok then None else Some text),
            Answer ok
              (mkData (str "094F471A1A0A") plain (str "cisco-type7") text))
    /\ (ok = true -> text = str "Decryption successful")
    /\ (ok = false ->
        plain = None
        /\ In text (map str
                      ["Invalid Cisco Type 7 format";
                       "Not a valid Juniper Type 9 password";
                       "Invalid Base64 format";
                       "Hash not found in known passwords database";
                       "Unsupported encryption type"]%string)).
Proof.
  apply (route_answer_shape (fun s => inl s) (str "094F471A1A0A")
           (str "cisco-type7")); discriminate.
Defined.

(** The decoder past its gate, with its loop unrolled over the pairs. *)
Lemma decryptCiscoType7_pairs (encrypted : jsstring) :
  hex_test encrypted = true ->
  decryptCiscoType7 encrypted
  = Done (succeeded (VString
            (cisco_pairs (parseInt (substring encrypted (Num 0) (Num 2)) 10) 2
               (skipn 2 encrypted)))).
Proof.
  intros H. unfold decryptCiscoType7. rewrite H. cbn [negb].
  rewrite cisco_for_pairs; [|lia|rewrite length_skipn; lia].
  reflexivity.
Qed.

(** X3: a Cisco text of one or two hex digits holds no pair after the salt;
    it is decoded with success to the empty plaintext, which the answer of
    the route reports as a null [decryptedPassword]. *)
Theorem route_empty_plaintext_is_null
  (platform : jsstring -> jsstring + jsstring) (text : jsstring) :
  hex_test text = true -> (length text <= 2)%nat ->
  decryptCiscoType7 text = Done (succeeded (VString []))
  /\ password_decrypt_route platform (Some text) (Some (str "cisco-type7"))
     = Done (mkLog true None,
             Answer true
               (mkData text None (str "cisco-type7")
                  (str "Decryption successful"))).
Proof.
  intros H L.
  assert (D : decryptCiscoType7 text = Done (succeeded (VString []))).
  { rewrite decryptCiscoType7_pairs by exact H.
    rewrite skipn_all2 by exact L. reflexivity. }
  split; [exact D|].
  destruct text as [|c text]; [discriminate|].
  unfold password_decrypt_route.
  change (password_decrypt_switch platform (str "cisco-type7") (c :: text))
    with (decryptCiscoType7 (c :: text)).
  rewrite D. reflexivity.
Qed.

Lemma route_empty_plaintext_is_null_witness :
  decryptCiscoType7 (str "07") = Done (succeeded (VString []))
  /\ password_decrypt_route (fun s => inl s) (Some (str "07"))
       (Some (str "cisco-type7"))
     = Done (mkLog true None,
             Answer true
               (mkData (str "07") None (str "cisco-type7")
                  (str "Decryption successful"))).
Proof.
  apply (route_empty_plaintext_is_null (fun s => inl s) (str "07"));
    [reflexivity|simpl; lia].
Defined.

(** ** Further properties of the Cisco Type 7 decoder *)

Lemma cisco_pairs_ext (salt1 salt2 : number) (n : nat) :
  (forall (j : Z) (pair : jsstring),
      2 <= j -> cisco_char salt1 j pair = cisco_char salt2 j pair) ->
  forall (s : jsstring) (i : Z),
    (length s <= n)%nat -> 2 <= i ->
    cisco_pairs salt1 i s = cisco_pairs salt2 i s.
Proof.
  intros H. induction n as [|n IH]; intros s i L Hi.
  - destruct s; [reflexivity|simpl in L; lia].
  - destruct s as [|a [|b rest]]; [reflexivity|apply H; exact Hi|].
    cbn [cisco_pairs]. rewrite (H i) by exact Hi.
    rewrite IH; [reflexivity|simpl in L; lia|lia].
Qed.

Lemma cisco_char_salt_wraps (s j : Z) (pair : jsstring) :
  0 <= s -> 2 <= j ->
  cisco_char (Num s) j pair = cisco_char (Num (s + 53)) j pair.
Proof.
  intros Hs Hj. unfold cisco_char. rewrite len_key. cbn [num_add num_rem].
  assert (0 <= j / 2 - 1).
  { assert (1 <= j / 2) by (apply Z.div_le_lower_bound; lia). lia. }
  cbn [Z.eqb]. rewrite !Z.rem_mod_nonneg by lia.
  replace (j / 2 - 1 + (s + 53)) with (j / 2 - 1 + s + 1 * 53) by lia.
  rewrite Z_mod_plus_full. reflexivity.
Qed.

Lemma decimal_digit_bounds (d : Z) :
  is_decimal_digit d = true -> 48 <= d <= 57.
Proof.
  unfold is_decimal_digit. rewrite andb_true_iff, !Z.leb_le. trivial.
Qed.

(** X4: the salt counts modulo the length of the key: two texts that differ
    only in their salt digits, by 53, decode alike. *)
Theorem cisco_type7_salt_wraps (d1 d2 e1 e2 : Z) (body : jsstring) :
  is_decimal_digit d1 = true -> is_decimal_digit d2 = true ->
  is_decimal_digit e1 = true -> is_decimal_digit e2 = true ->
  salt_of e1 e2 = salt_of d1 d2 + 53 ->
  forallb is_hex_digit body = true ->
  decryptCiscoType7 (e1 :: e2 :: body) = decryptCiscoType7 (d1 :: d2 :: body).
Proof.
  intros D1 D2 E1 E2 S Hb.
  assert (T : forall x y : Z,
             is_decimal_digit x = true -> is_decimal_digit y = true ->
             hex_test (x :: y :: body) = true).
  { intros x y X Y. cbn [hex_test forallb].
    rewrite (is_decimal_digit_hex x X), (is_decimal_digit_hex y Y), Hb.
    reflexivity. }
  rewrite !decryptCiscoType7_pairs by (apply T; assumption).
  rewrite !substring_spec by lia.
  change (Z.to_nat (2 - 0)) with 2%nat. change (Z.to_nat 0) with 0%nat.
  cbn [skipn firstn]. rewrite !parseInt_decimal_pair by assumption.
  rewrite S. do 3 f_equal. symmetry.
  apply (cisco_pairs_ext _ _ (length body)); [|lia|lia].
  intros j pair Hj. apply cisco_char_salt_wraps; [|exact Hj].
  apply decimal_digit_bounds in D1, D2. unfold salt_of. lia.
Qed.

Lemma cisco_type7_salt_wraps_witness :
  decryptCiscoType7 (str "554F47") = decryptCiscoType7 (str "024F47").
Proof.
  apply (cisco_type7_salt_wraps 48 50 53 53 (str "4F47"));
    reflexivity.
Defined.

(** *** The letter case of the hex digits *)

Lemma lower_hex_digit (c : Z) : is_hex_digit (lower_unit c) = is_hex_digit c.
Proof.
  unfold lower_unit. destruct ((65 <=? c) && (c <=? 90)) eqn:E; [|reflexivity].
  apply andb_true_iff in E. rewrite !Z.leb_le in E.
  assert (I : In c (map Z.of_nat (seq 65 26))) by (simpl; lia).
  assert (C : forallb (fun c => Bool.eqb (is_hex_digit (c + 32)) (is_hex_digit c))
                (map Z.of_nat (seq 65 26)) = true) by (vm_compute; reflexivity).
  rewrite forallb_forall in C. apply Bool.eqb_prop, C, I.
Qed.

Lemma lower_hex_all (s : jsstring) :
  forallb is_hex_digit (toLowerCase s) = forallb is_hex_digit s.
Proof.
  induction s as [|c s IH]; [reflexivity|].
  cbn [toLowerCase map forallb]. fold (toLowerCase s).
  rewrite lower_hex_digit, IH. reflexivity.
Qed.

Lemma lower_hex_test (s : jsstring) : hex_test (toLowerCase s) = hex_test s.
Proof.
  destruct s as [|c s]; [reflexivity|].
  change (hex_test (toLowerCase (c :: s)))
    with (forallb is_hex_digit (toLowerCase (c :: s))).
  rewrite lower_hex_all. reflexivity.
Qed.

Lemma substring_map (f : Z -> Z) (s : jsstring) (a b : number) :
  substring (map f s) a b = map f (substring s a b).
Proof.
  unfold substring, len. rewrite length_map, skipn_map, firstn_map.
  reflexivity.
Qed.

(** [parseInt] reads a hex digit in either case alike. *)
Lemma parseInt_lower (radix : Z) (pair : jsstring) :
  radix = 10 \/ radix = 16 ->
  (length pair <= 2)%nat -> forallb is_hex_digit pair = true ->
  parseInt (toLowerCase pair) radix = parseInt pair radix.
Proof.
  intros R L H.
  assert (C : forallb (fun radix => forallb (fun a =>
                number_eqb (parseInt (toLowerCase [a]) radix)
                  (parseInt [a] radix)
                && forallb (fun b =>
                     number_eqb (parseInt (toLowerCase [a; b]) radix)
                       (parseInt [a; b] radix)) hex_digits)
                hex_digits) [10; 16] = true) by (vm_compute; reflexivity).
  rewrite forallb_forall in C.
  assert (IR : In radix [10; 16]) by (simpl; lia).
  specialize (C radix IR). rewrite forallb_forall in C.
  destruct pair as [|a [|b [|c rest]]]; [reflexivity| | |simpl in L; lia].
  - cbn [forallb] in H. rewrite andb_true_r in H.
    specialize (C a (is_hex_digit_In a H)). apply andb_true_iff in C.
    apply number_eqb_eq, C.
  - cbn [forallb] in H. rewrite andb_true_r in H.
    apply andb_true_iff in H. destruct H as [Ha Hb].
    specialize (C a (is_hex_digit_In a Ha)). apply andb_true_iff in C.
    destruct C as [_ C]. rewrite forallb_forall in C.
    apply number_eqb_eq, C, is_hex_digit_In, Hb.
Qed.

Lemma cisco_pairs_lower (salt : number) (n : nat) :
  forall (s : jsstring) (i : Z),
    (length s <= n)%nat -> forallb is_hex_digit s = true ->
    cisco_pairs salt i (toLowerCase s) = cisco_pairs salt i s.
Proof.
  induction n as [|n IH]; intros s i L H.
  - destruct s; [reflexivity|simpl in L; lia].
  - destruct s as [|a [|b rest]]; [reflexivity| |].
    + change (cisco_pairs salt i (toLowerCase [a]))
        with (cisco_char salt i (toLowerCase [a])).
      unfold cisco_pairs, cisco_char.
      rewrite parseInt_lower; auto; simpl; lia.
    + change (cisco_pairs salt i (toLowerCase (a :: b :: rest)))
        with (cisco_char salt i (toLowerCase [a; b])
              ++ cisco_pairs salt (i + 2) (toLowerCase rest)).
      cbn [cisco_pairs forallb] in *.
      apply andb_true_iff in H. destruct H as [Ha H].
      apply andb_true_iff in H. destruct H as [Hb H].
      rewrite IH by (simpl in L; auto; lia).
      unfold cisco_char. rewrite parseInt_lower; auto.
      cbn [forallb]. rewrite Ha, Hb. reflexivity.
Qed.

(** X5: the decoder reads the hex digits in either case: a text and the same
    text in lower case decode alike, whatever the text. *)
Theorem cisco_type7_case_insensitive (encrypted : jsstring) :
  decryptCiscoType7 (toLowerCase encrypted) = decryptCiscoType7 encrypted.
Proof.
  destruct (hex_test encrypted) eqn:H.
  - rewrite !decryptCiscoType7_pairs by (rewrite ?lower_hex_test; exact H).
    assert (A : forallb is_hex_digit encrypted = true)
      by (destruct encrypted; [discriminate|exact H]).
    unfold toLowerCase at 1 2. rewrite substring_map, skipn_map.
    fold (toLowerCase (substring encrypted (Num 0) (Num 2))).
    fold (toLowerCase (skipn 2 encrypted)).
    rewrite substring_spec by lia.
    change (Z.to_nat (2 - 0)) with 2%nat. change (Z.to_nat 0) with 0%nat.
    cbn [skipn].
    destruct (forallb_split is_hex_digit 2 encrypted A) as [A1 A2].
    rewrite parseInt_lower; auto; [|apply firstn_le_length].
    rewrite (cisco_pairs_lower _ (length (skipn 2 encrypted))); auto.
  - pose proof (decryptCiscoType7_shape encrypted) as S1.
    pose proof (decryptCiscoType7_shape (toLowerCase encrypted)) as S2.
    rewrite lower_hex_test, H in S2. rewrite H in S1. congruence.
Qed.

(** *** A salt that is no number *)

Lemma is_hex_letter_In (c : Z) :
  is_hex_letter c = true -> In c (skipn 10 hex_digits).
Proof.
  unfold is_hex_letter, is_hex_digit, is_decimal_digit.
  rewrite andb_true_iff, negb_true_iff, andb_false_iff, !orb_true_iff,
    !andb_true_iff, !Z.leb_le, !Z.leb_gt.
  simpl. lia.
Qed.

Lemma parseInt_letter (a : Z) (rest : jsstring) :
  is_hex_letter a = true -> parseInt (a :: rest) 10 = NaN.
Proof.
  intros H%is_hex_letter_In. simpl in H.
  repeat (destruct H as [<-|H]; [reflexivity|]). contradiction.
Qed.

Lemma cisco_char_NaN (j byte : Z) (pair : jsstring) :
  0 <= byte < 256 -> parseInt pair 16 = Num byte ->
  cisco_char NaN j pair = [Z.lxor byte (key_code 0)].
Proof.
  intros B E. unfold cisco_char. rewrite E. cbn [num_add num_rem].
  change (charCodeAt key NaN) with (Num (key_code 0)).
  pose proof (key_code_bound 0) as K.
  unfold num_xor. rewrite !toInt32_small by lia.
  unfold fromCharCode, toUint16.
  pose proof (lxor_bound 8 byte (key_code 0) ltac:(simpl; lia)
                ltac:(simpl; lia)) as X.
  simpl in X. rewrite Z.mod_small by (simpl; lia). reflexivity.
Qed.

Lemma cisco_pairs_NaN (n : nat) :
  forall (body : jsstring) (i : Z),
    length body = (2 * n)%nat -> forallb is_hex_digit body = true ->
    cisco_pairs NaN i body
    = map (fun byte => Z.lxor byte (key_code 0)) (hex_bytes body).
Proof.
  induction n as [|n IH]; intros body i L H.
  - destruct body; [reflexivity|discriminate].
  - destruct body as [|a [|b rest]]; try (simpl in L; lia).
    cbn [forallb] in H. rewrite !andb_true_iff in H. destruct H as (Ha & Hb & Hr).
    cbn [cisco_pairs hex_bytes map].
    pose proof (hex_value_bound a Ha). pose proof (hex_value_bound b Hb).
    rewrite (cisco_char_NaN i (16 * hex_value a + hex_value b))
      by (try apply parseInt_hex_pair; auto; lia).
    rewrite IH; auto. simpl in L. lia.
Qed.

(** X6: where the text starts with one of the letters A to F, the salt reads
    as NaN, the key index falls back to 0, and every pair is combined with
    the first character of the key alone. *)
Theorem cisco_type7_letter_salt (a b : Z) (body : jsstring) :
  is_hex_letter a = true -> is_hex_digit b = true ->
  forallb is_hex_digit body = true -> Nat.even (length body) = true ->
  decryptCiscoType7 (a :: b :: body)
  = Done (succeeded (VString
            (map (fun byte => Z.lxor byte (key_code 0)) (hex_bytes body)))).
Proof.
  intros Ha Hb H E.
  assert (A : is_hex_digit a = true).
  { unfold is_hex_letter in Ha. apply andb_true_iff in Ha. apply Ha. }
  rewrite decryptCiscoType7_pairs
    by (cbn [hex_test forallb]; rewrite A, Hb, H; reflexivity).
  rewrite substring_spec by lia.
  change (Z.to_nat (2 - 0)) with 2%nat. change (Z.to_nat 0) with 0%nat.
  cbn [skipn firstn]. rewrite parseInt_letter by exact Ha.
  rewrite (cisco_pairs_NaN _ _ _ (even_length_half _ E) H). reflexivity.
Qed.

Lemma cisco_type7_letter_salt_witness :
  decryptCiscoType7 (str "AB12")
  = Done (succeeded (VString
            (map (fun byte => Z.lxor byte (key_code 0))
               (hex_bytes (str "12"))))).
Proof.
  apply (cisco_type7_letter_salt 65 66 (str "12")); reflexivity.
Defined.

(** *** The decoder is one to one *)

Lemma two_hex_lower (a b : Z) :
  is_hex_digit a = true -> is_hex_digit b = true ->
  two_hex false (16 * hex_value a + hex_value b)
  = [lower_unit a; lower_unit b].
Proof.
  intros Ha%is_hex_digit_In Hb%is_hex_digit_In.
  assert (C : forallb (fun a => forallb (fun b =>
                string_eqb (two_hex false (16 * hex_value a + hex_value b))
                  [lower_unit a; lower_unit b]) hex_digits)
                hex_digits = true) by (vm_compute; reflexivity).
  rewrite forallb_forall in C. specialize (C a Ha).
  rewrite forallb_forall in C. apply string_eqb_eq, C, Hb.
Qed.

(** Encoding the plaintext of a body gives the body back, in lower case. *)
Lemma cisco_encode_plain (n : nat) :
  forall (body : jsstring) (s i : Z),
    length body = (2 * n)%nat -> forallb is_hex_digit body = true ->
    cisco_encode_from false s i (type7_plain s i body) = toLowerCase body.
Proof.
  induction n as [|n IH]; intros body s i L H.
  - destruct body; [reflexivity|discriminate].
  - destruct body as [|a [|b rest]]; try (simpl in L; lia).
    cbn [forallb] in H. rewrite !andb_true_iff in H. destruct H as (Ha & Hb & Hr).
    cbn [type7_plain cisco_encode_from].
    rewrite lxor_key_twice, two_hex_lower by assumption.
    rewrite IH; auto. simpl in L. lia.
Qed.

(** X7: no two texts decode alike unless they are the same: with the same
    salt digits, two even bodies of hex digits with the same plaintext are
    equal up to the case of their letters. *)
Theorem cisco_type7_one_to_one (d1 d2 : Z) (body body' : jsstring) :
  is_decimal_digit d1 = true -> is_decimal_digit d2 = true ->
  forallb is_hex_digit body = true -> Nat.even (length body) = true ->
  forallb is_hex_digit body' = true -> Nat.even (length body') = true ->
  decryptCiscoType7 (d1 :: d2 :: body) = decryptCiscoType7 (d1 :: d2 :: body') ->
  toLowerCase body = toLowerCase body'.
Proof.
  intros D1 D2 H E H' E' Q.
  rewrite !decryptCiscoType7_plain in Q by assumption.
  injection Q as Q.
  rewrite <- (cisco_encode_plain _ body (salt_of d1 d2) 0
                (even_length_half _ E) H).
  rewrite <- (cisco_encode_plain _ body' (salt_of d1 d2) 0
                (even_length_half _ E') H').
  rewrite Q. reflexivity.
Qed.

Lemma cisco_type7_one_to_one_witness :
  toLowerCase (str "4F471A") = toLowerCase (str "4f471a").
Proof.
  apply (cisco_type7_one_to_one 48 57 (str "4F471A") (str "4f471a"));
    reflexivity.
Defined.

(** ** Further properties of the Juniper Type 9 decoder *)

Lemma no_dollar_start (c : Z) (s : jsstring) :
  no_dollar c = true -> startsWith (c :: s) (str "$9$") = false.
Proof.
  unfold no_dollar. rewrite negb_true_iff, Z.eqb_neq. intros N.
  change (str "$9$") with [36; 57; 36]. cbn [startsWith].
  replace (36 =? c) with false by (symmetry; apply Z.eqb_neq; lia).
  reflexivity.
Qed.

Lemma split_go_no_dollar (s : jsstring) :
  forall cur : jsstring,
    forallb no_dollar s = true ->
    split_go (str "$9$") 0 cur s = [rev cur ++ s].
Proof.
  induction s as [|c s IH]; intros cur H.
  - simpl. rewrite app_nil_r. reflexivity.
  - cbn [forallb] in H. apply andb_true_iff in H. destruct H as [Hc Hs].
    rewrite split_go_pass by (apply no_dollar_start, Hc).
    rewrite IH by exact Hs. cbn [rev]. rewrite <- app_assoc. reflexivity.
Qed.

Lemma split_go_until (a : jsstring) :
  forall cur b : jsstring,
    forallb no_dollar a = true ->
    split_go (str "$9$") 0 cur (a ++ str "$9$" ++ b)
    = (rev cur ++ a) :: split_go (str "$9$") 0 [] b.
Proof.
  induction a as [|c a IH]; intros cur b H.
  - change ([] ++ str "$9$" ++ b) with (36 :: 57 :: 36 :: b).
    change (str "$9$") with [36; 57; 36].
    rewrite split_go_match
      by (cbn [startsWith]; rewrite !Z.eqb_refl; apply startsWith_nil).
    rewrite app_nil_r. reflexivity.
  - cbn [forallb] in H. apply andb_true_iff in H. destruct H as [Hc Ha].
    cbn [app]. rewrite split_go_pass by (apply no_dollar_start, Hc).
    rewrite IH by exact Ha. cbn [rev]. rewrite <- app_assoc. reflexivity.
Qed.

(** X8: only what stands between the prefix and the next "$9$" is decoded;
    whatever follows a second "$9$" is dropped without notice. *)
Theorem juniper_type9_second_marker (a b : jsstring) :
  forallb no_dollar a = true ->
  decryptJuniperType9 (str "$9$" ++ a ++ str "$9$" ++ b)
  = decryptJuniperType9 (str "$9$" ++ a).
Proof.
  intros H. unfold decryptJuniperType9. rewrite !startsWith_app.
  rewrite (juniper_piece _ a (split_go (str "$9$") 0 [] b))
    by (rewrite split_go_until by exact H; reflexivity).
  rewrite (juniper_piece a a [])
    by (rewrite split_go_no_dollar by exact H; reflexivity).
  reflexivity.
Qed.

Lemma juniper_type9_second_marker_witness :
  decryptJuniperType9 (str "$9$" ++ str "ikqf" ++ str "$9$" ++ str "zzzz")
  = decryptJuniperType9 (str "$9$" ++ str "ikqf").
Proof.
  apply (juniper_type9_second_marker (str "ikqf") (str "zzzz")). reflexivity.
Defined.

Lemma inherited_not_number (k : jsstring) (z : Z) :
  inherited_property k <> VNumber z.
Proof.
  unfold inherited_property.
  destruct (existsb (string_eqb k) prototype_methods); [discriminate|].
  destruct (string_eqb k (str "__proto__")); discriminate.
Qed.

(** A character that has a family is no dollar sign. *)
Lemma character_key_no_dollar (c z : Z) :
  get_property JUNIPER_CHARACTER_KEYS [c] = VNumber z -> no_dollar c = true.
Proof.
  unfold get_property.
  destruct (own_property JUNIPER_CHARACTER_KEYS [c]) as [v|] eqn:E;
    [|intros H; exfalso; exact (inherited_not_number _ _ H)].
  intros _. apply own_property_In in E.
  assert (C : forallb (fun entry =>
                match fst entry with
                | [x] => no_dollar x
                | _ => false
                end) JUNIPER_CHARACTER_KEYS = true)
    by (vm_compute; reflexivity).
  rewrite forallb_forall in C. exact (C _ E).
Qed.

(** X9: the characters of the skip block do not bear on the plaintext: two
    texts with the same first character and the same data decode alike,
    whatever stands in between, as long as it has the length that the first
    character asks for. *)
Theorem juniper_type9_skip_block (first : Z) (block block' data : jsstring) :
  get_property JUNIPER_CHARACTER_KEYS [first]
  = VNumber (Z.of_nat (length block)) ->
  length block' = length block ->
  forallb no_dollar block = true -> forallb no_dollar block' = true ->
  forallb no_dollar data = true ->
  decryptJuniperType9 (str "$9$" ++ first :: block ++ data)
  = decryptJuniperType9 (str "$9$" ++ first :: block' ++ data).
Proof.
  intros G L B B' D.
  pose proof (character_key_no_dollar _ _ G) as F.
  assert (R : forall blk : jsstring,
             length blk = length block -> forallb no_dollar blk = true ->
             decryptJuniperType9 (str "$9$" ++ first :: blk ++ data)
             = try_catch
                 (decryptedPassword <-
                    juniper_while (length data) data [first] [] ;;
                  Done (succeeded (VString decryptedPassword)))
                 (fun error_message =>
                    Done (failed (str "Decryption failed: " ++ error_message)))).
  { intros blk Lb Hb. unfold decryptJuniperType9. rewrite startsWith_app.
    rewrite (juniper_piece _ (first :: blk ++ data) []).
    - cbn [negb].
      assert (C : charAt (first :: blk ++ data) (Num 0) = [first])
        by reflexivity.
      rewrite C, G. cbn [plus_one].
      rewrite substring_from_spec by lia.
      replace (Z.to_nat (Z.of_nat (length block) + 1))
        with (S (length blk)) by lia.
      cbn [skipn]. rewrite skipn_app, skipn_all, Nat.sub_diag. reflexivity.
    - rewrite split_go_no_dollar; [reflexivity|].
      cbn [forallb]. rewrite forallb_app, F, Hb, D. reflexivity. }
  rewrite (R block eq_refl B), (R block' L B'). reflexivity.
Qed.

Lemma juniper_type9_skip_block_witness :
  decryptJuniperType9 (str "$9$" ++ 97 :: str "Q" ++ str "QzF")
  = decryptJuniperType9 (str "$9$" ++ 97 :: str "!" ++ str "QzF").
Proof.
  apply (juniper_type9_skip_block 97 (str "Q") (str "!") (str "QzF"));
    reflexivity.
Defined.

(** ** Further properties of the lookup of hashes *)

Lemma lower_unit_not_upper (c : Z) : is_upper (lower_unit c) = false.
Proof.
  unfold lower_unit, is_upper.
  destruct ((65 <=? c) && (c <=? 90)) eqn:E; [|exact E].
  apply andb_true_iff in E. rewrite !Z.leb_le in E.
  apply andb_false_iff. right. apply Z.leb_gt. lia.
Qed.

Lemma toLowerCase_no_upper (s : jsstring) :
  existsb is_upper (toLowerCase s) = false.
Proof.
  induction s as [|c s IH]; [reflexivity|].
  cbn [toLowerCase map existsb]. fold (toLowerCase s).
  rewrite lower_unit_not_upper, IH. reflexivity.
Qed.

Lemma toLowerCase_idempotent (s : jsstring) :
  toLowerCase (toLowerCase s) = toLowerCase s.
Proof.
  unfold toLowerCase. rewrite map_map. apply map_ext. intros c.
  pose proof (lower_unit_not_upper c) as H. unfold is_upper in H.
  unfold lower_unit at 1. rewrite H. reflexivity.
Qed.

(** The only names on the prototype chain that a lowered text can be. *)
Lemma inherited_lower (h : jsstring) :
  toLowerCase h <> str "constructor" -> toLowerCase h <> str "__proto__" ->
  inherited_property (toLowerCase h) = VUndefined.
Proof.
  intros N1 N2. unfold inherited_property.
  destruct (existsb (string_eqb (toLowerCase h)) prototype_methods) eqn:E.
  - exfalso. apply existsb_exists in E. destruct E as (name & I & Q).
    apply string_eqb_eq in Q.
    pose proof (toLowerCase_no_upper h) as U. rewrite Q in U.
    unfold prototype_methods in I. cbn [map In] in I.
    destruct I as [<-|I]; [apply N1, Q|].
    repeat (destruct I as [<-|I]; [discriminate U|]). contradiction.
  - destruct (string_eqb (toLowerCase h) (str "__proto__")) eqn:P;
      [|reflexivity].
    apply string_eqb_eq in P. contradiction.
Qed.

(** The three ways in which the lookup ends: with a plaintext string of the
    table, with the property that the table inherits under one of two
    names, or with the message of a hash not found. *)
Lemma checkMD5Hash_cases (hash : jsstring) :
  (exists plaintext : jsstring,
      checkMD5Hash hash = Done (succeeded (VString plaintext)))
  \/ (In (toLowerCase hash) [str "constructor"; str "__proto__"]
      /\ checkMD5Hash hash
         = Done (succeeded (inherited_property (toLowerCase hash))))
  \/ checkMD5Hash hash
     = Done (failed (str "Hash not found in known passwords database")).
Proof.
  destruct (own_property knownHashes (toLowerCase hash)) as [v|] eqn:E.
  - left. pose proof (checkMD5Hash_known _ _ E) as K.
    apply own_property_In in E.
    assert (C : forallb (fun entry =>
                  match snd entry with
                  | VString _ => true
                  | _ => false
                  end) knownHashes = true) by (vm_compute; reflexivity).
    rewrite forallb_forall in C. specialize (C _ E). cbn [snd] in C.
    destruct v as [| |plaintext| |]; try discriminate.
    exists plaintext. exact K.
  - right.
    destruct (string_eqb (toLowerCase hash) (str "constructor")) eqn:Q1.
    { apply string_eqb_eq in Q1. left. split; [left; symmetry; exact Q1|].
      unfold checkMD5Hash, get_property. rewrite E, Q1. reflexivity. }
    destruct (string_eqb (toLowerCase hash) (str "__proto__")) eqn:Q2.
    { apply string_eqb_eq in Q2. left.
      split; [right; left; symmetry; exact Q2|].
      unfold checkMD5Hash, get_property. rewrite E, Q2. reflexivity. }
    right. apply checkMD5Hash_unknown; [exact E|].
    apply inherited_lower; intros Q; apply string_eqb_eq in Q; congruence.
Qed.

(** ** The invariant of the result object *)

(** C7 on the code: every run of the switch ends with a result object; a
    failure has no [decrypted] and a message that is not empty; a success
    has no message and a [decrypted] that is a plaintext string, except
    under generic-md5 on a text that in lower case reads constructor or
    __proto__: there [decrypted] is the function or the object that the
    table inherits under that name, and no plaintext (the defect of C9). *)
Theorem decode_result_invariant :
  (forall (platform : jsstring -> jsstring + jsstring)
          (vendorType encryptedPassword : jsstring),
      exists r : DecodeResult,
        password_decrypt_switch platform vendorType encryptedPassword = Done r
        /\ (success r = false ->
            decrypted r = None
            /\ exists m : jsstring, message r = Some m /\ m <> [])
        /\ (success r = true ->
            message r = None
            /\ ((exists plaintext : jsstring,
                    decrypted r = Some (VString plaintext))
                \/ (vendorType = str "generic-md5"
                    /\ In (toLowerCase encryptedPassword)
                         [str "constructor"; str "__proto__"]
                    /\ decrypted r
                       = Some (inherited_property
                                 (toLowerCase encryptedPassword))))))
  /\ (forall platform : jsstring -> jsstring + jsstring,
         password_decrypt_switch platform (str "generic-md5")
           (str "constructor")
         = Done (succeeded (VFunction (str "constructor"))))
  /\ (forall platform : jsstring -> jsstring + jsstring,
         password_decrypt_switch platform (str "generic-md5")
           (str "__proto__")
         = Done (succeeded VObjectPrototype)).
Proof.
  assert (OK : forall p : jsstring,
             exists r : DecodeResult,
               Done (succeeded (VString p)) = Done r
               /\ (success r = false ->
                   decrypted r = None
                   /\ exists m : jsstring, message r = Some m /\ m <> [])
               /\ (success r = true ->
                   message r = None
                   /\ exists plaintext : jsstring,
                       decrypted r = Some (VString plaintext))).
  { intros p. eexists. split; [reflexivity|]. split; [discriminate|].
    intros _. split; [reflexivity|]. exists p. reflexivity. }
  assert (KO : forall m : jsstring,
             m <> [] ->
             exists r : DecodeResult,
               Done (failed m) = Done r
               /\ (success r = false ->
                   decrypted r = None
                   /\ exists m' : jsstring, message r = Some m' /\ m' <> [])
               /\ (success r = true ->
                   message r = None
                   /\ exists plaintext : jsstring,
                       decrypted r = Some (VString plaintext))).
  { intros m N. eexists. split; [reflexivity|]. split; [|discriminate].
    intros _. split; [reflexivity|]. exists m. split; [reflexivity|exact N]. }
  assert (W : forall (o : outcome DecodeResult) (v e : jsstring),
             (exists r : DecodeResult,
                 o = Done r
                 /\ (success r = false ->
                     decrypted r = None
                     /\ exists m : jsstring, message r = Some m /\ m <> [])
                 /\ (success r = true ->
                     message r = None
                     /\ exists plaintext : jsstring,
                         decrypted r = Some (VString plaintext))) ->
             exists r : DecodeResult,
               o = Done r
               /\ (success r = false ->
                   decrypted r = None
                   /\ exists m : jsstring, message r = Some m /\ m <> [])
               /\ (success r = true ->
                   message r = None
                   /\ ((exists plaintext : jsstring,
                           decrypted r = Some (VString plaintext))
                       \/ (v = str "generic-md5"
                           /\ In (toLowerCase e)
                                [str "constructor"; str "__proto__"]
                           /\ decrypted r
                              = Some (inherited_property (toLowerCase e)))))).
  { intros o v e (r & E & F & T). exists r. split; [exact E|].
    split; [exact F|]. intros S. destruct (T S) as [M P].
    split; [exact M|left; exact P]. }
  split; [|split; intros platform; vm_compute; reflexivity].
  intros platform vendorType encryptedPassword.
  unfold password_decrypt_switch.
  destruct (string_eqb vendorType (str "cisco-type7")).
  { apply W. pose proof (decryptCiscoType7_shape encryptedPassword) as H.
    destruct (hex_test encryptedPassword).
    - destruct H as [p ->]. apply OK.
    - rewrite H. apply KO. discriminate. }
  destruct (string_eqb vendorType (str "juniper-type9")).
  { apply W. pose proof (decryptJuniperType9_shape encryptedPassword) as H.
    destruct (startsWith encryptedPassword (str "$9$")).
    - destruct H as [p ->]. apply OK.
    - rewrite H. apply KO. discriminate. }
  destruct (string_eqb vendorType (str "base64")).
  { apply W. unfold decodeBase64.
    destruct (platform encryptedPassword) as [text|e]; cbn [bind try_catch].
    - apply OK.
    - apply KO. discriminate. }
  destruct (string_eqb vendorType (str "generic-md5")) eqn:E4.
  { apply string_eqb_eq in E4.
    destruct (checkMD5Hash_cases encryptedPassword)
      as [[p ->]|[[I ->]| ->]].
    - apply W, OK.
    - eexists. split; [reflexivity|]. split.
      + intros F. discriminate F.
      + intros _. split; [reflexivity|]. right.
        split; [exact E4|]. split; [exact I|reflexivity].
    - apply W, KO. discriminate. }
  apply W, KO. discriminate.
Qed.

(** ** The answers of the lookup *)

(** X10: apart from the texts that in lower case read constructor or
    __proto__, the lookup answers with a plaintext of its table, found under
    the text in lower case, or with the message of a hash not found. *)
Theorem checkMD5Hash_table_or_not_found (hash : jsstring) :
  toLowerCase hash <> str "constructor" ->
  toLowerCase hash <> str "__proto__" ->
  (exists plaintext : jsstring,
      In (toLowerCase hash, VString plaintext) knownHashes
      /\ checkMD5Hash hash = Done (succeeded (VString plaintext)))
  \/ (own_property knownHashes (toLowerCase hash) = None
      /\ checkMD5Hash hash
         = Done (failed (str "Hash not found in known passwords database"))).
Proof.
  intros N1 N2.
  destruct (own_property knownHashes (toLowerCase hash)) as [v|] eqn:E.
  - left. pose proof (checkMD5Hash_known _ _ E) as K.
    apply own_property_In in E.
    assert (C : forallb (fun entry =>
                  match snd entry with
                  | VString _ => true
                  | _ => false
                  end) knownHashes = true) by (vm_compute; reflexivity).
    rewrite forallb_forall in C. specialize (C _ E). cbn [snd] in C.
    destruct v as [| |plaintext| |]; try discriminate.
    exists plaintext. split; assumption.
  - right. split; [reflexivity|].
    apply checkMD5Hash_unknown; [exact E|apply inherited_lower; assumption].
Qed.

Lemma checkMD5Hash_table_or_not_found_witness :
  (exists plaintext : jsstring,
      In (toLowerCase (str "5F4DCC3B5AA765D61D8327DEB882CF99"),
          VString plaintext) knownHashes
      /\ checkMD5Hash (str "5F4DCC3B5AA765D61D8327DEB882CF99")
         = Done (succeeded (VString plaintext)))
  \/ (own_property knownHashes
        (toLowerCase (str "5F4DCC3B5AA765D61D8327DEB882CF99")) = None
      /\ checkMD5Hash (str "5F4DCC3B5AA765D61D8327DEB882CF99")
         = Done (failed (str "Hash not found in known passwords database"))).
Proof.
  apply (checkMD5Hash_table_or_not_found
           (str "5F4DCC3B5AA765D61D8327DEB882CF99")); discriminate.
Defined.

(** X11: the lookup does not tell the cases of letters apart: a hash and
    the same hash in lower case get the same answer. *)
Theorem checkMD5Hash_case_insensitive (hash : jsstring) :
  checkMD5Hash (toLowerCase hash) = checkMD5Hash hash.
Proof.
  unfold checkMD5Hash. rewrite toLowerCase_idempotent. reflexivity.
Qed.

(** ** The analysis of hashes *)

Lemma checkMD5Hash_string (hash plaintext : jsstring) :
  checkMD5Hash hash = Done (succeeded (VString plaintext)) ->
  In (toLowerCase hash, VString plaintext) knownHashes.
Proof.
  unfold checkMD5Hash, get_property.
  destruct (own_property knownHashes (toLowerCase hash)) as [v|] eqn:E.
  - destruct (truthy v); [|discriminate].
    intros Q. injection Q as ->. apply own_property_In, E.
  - destruct (truthy (inherited_property (toLowerCase hash)));
      [|discriminate].
    intros Q. injection Q as Q. exfalso. revert Q.
    unfold inherited_property.
    destruct (existsb _ prototype_methods); [discriminate|].
    destruct (string_eqb _ (str "__proto__")); discriminate.
Qed.

(** X12: every hash that the lookup resolves to a plaintext string is one
    that [analyzeHashType] takes for hexadecimal and for an MD5 or NTLM
    hash. *)
Theorem resolved_hash_is_md5 (hash plaintext : jsstring)
  (provided : option jsstring) :
  checkMD5Hash hash = Done (succeeded (VString plaintext)) ->
  possibleTypes (analyzeHashType hash provided) = [str "MD5"; str "NTLM"]
  /\ isHex (analyzeHashType hash provided) = true.
Proof.
  intros H%checkMD5Hash_string.
  assert (C : forallb (fun entry =>
                (len (fst entry) =? 32) && hex_test (fst entry))
                knownHashes = true) by (vm_compute; reflexivity).
  rewrite forallb_forall in C. specialize (C _ H). cbn [fst] in C.
  apply andb_true_iff in C. destruct C as [L X].
  rewrite lower_hex_test in X.
  unfold len, toLowerCase in L. rewrite length_map in L. fold (len hash) in L.
  unfold analyzeHashType. cbn [possibleTypes isHex]. rewrite L.
  split; [reflexivity|exact X].
Qed.

Lemma resolved_hash_is_md5_witness :
  possibleTypes
    (analyzeHashType (str "5F4DCC3B5AA765D61D8327DEB882CF99") None)
  = [str "MD5"; str "NTLM"]
  /\ isHex (analyzeHashType (str "5F4DCC3B5AA765D61D8327DEB882CF99") None)
     = true.
Proof.
  apply (resolved_hash_is_md5 (str "5F4DCC3B5AA765D61D8327DEB882CF99")
           (str "password") None).
  reflexivity.
Defined.

(** X13: a hash that is taken for bcrypt has 60 characters and is never
    reported as hexadecimal, for it starts with a dollar sign. *)
Theorem bcrypt_is_not_hex (hash : jsstring) (provided : option jsstring) :
  In (str "bcrypt") (possibleTypes (analyzeHashType hash provided)) ->
  hash_length (analyzeHashType hash provided) = 60
  /\ isHex (analyzeHashType hash provided) = false.
Proof.
  unfold analyzeHashType. cbn [possibleTypes hash_length isHex].
  repeat match goal with
         | |- context [if ?b then _ else _] =>
             lazymatch b with
             | (_ =? 60) => fail
             | (_ =? _) =>
                 destruct b;
                 [cbn [In]; intros I;
                  repeat (destruct I as [I|I]; [discriminate|]);
                  contradiction|]
             end
         end.
  destruct (len hash =? 60) eqn:L; [|intros []].
  destruct (startsWith hash (str "$2")) eqn:S; [|intros []].
  intros _. split; [apply Z.eqb_eq, L|].
  destruct hash as [|c hash]; [discriminate|].
  change (str "$2") with [36; 50] in S. cbn [startsWith] in S.
  apply andb_true_iff in S. destruct S as [S _]. apply Z.eqb_eq in S.
  subst c. reflexivity.
Qed.

Lemma bcrypt_is_not_hex_witness :
  hash_length
    (analyzeHashType
       (str "$2a$10$N9qo8uLOickgx2ZMRZoMyeIjZAgcfl7p92ldGxad68LJZdL17lhWy")
       None) = 60
  /\ isHex
       (analyzeHashType
          (str "$2a$10$N9qo8uLOickgx2ZMRZoMyeIjZAgcfl7p92ldGxad68LJZdL17lhWy")
          None) = false.
Proof.
  apply (bcrypt_is_not_hex
           (str "$2a$10$N9qo8uLOickgx2ZMRZoMyeIjZAgcfl7p92ldGxad68LJZdL17lhWy")
           None).
  simpl. auto.
Defined.

(** X14: what [analyzeHashType] reports as hexadecimal is what the Cisco
    decoder decodes: the one succeeds exactly where the other says hex. *)
Theorem hex_is_what_cisco_decodes (text : jsstring) (provided : option jsstring) :
  (exists plaintext : jsstring,
      decryptCiscoType7 text = Done (succeeded (VString plaintext)))
  <-> isHex (analyzeHashType text provided) = true.
Proof.
  unfold analyzeHashType. cbn [isHex].
  pose proof (decryptCiscoType7_shape text) as S.
  destruct (hex_test text); split; auto.
  - intros [p Q]. rewrite S in Q. discriminate.
  - discriminate.
Qed.

(** ** The analysis of the strength of a password *)

Ltac strength_cases password :=
  unfold analyzePasswordStrength;
  destruct (Z.leb_spec 8 (len password));
  destruct (Z.leb_spec 12 (len password));
  destruct (existsb is_lower password);
  destruct (existsb is_upper password);
  destruct (existsb is_digit password);
  destruct (existsb is_special password);
  cbn [criterion score maxScore strength feedback Z.add Z.leb Z.compare
       Pos.compare Pos.compare_cont Pos.add Pos.succ app length].

(** X15: the score counts the criteria that are met and the feedback lists
    the others: the score lies between 0 and the maximum of 6, and score and
    pieces of advice add up to 5, or to 6 from twelve characters on, the
    criterion of twelve characters having no advice of its own. *)
Theorem strength_score_and_feedback (password : jsstring) :
  0 <= score (analyzePasswordStrength password)
       <= maxScore (analyzePasswordStrength password)
  /\ score (analyzePasswordStrength password)
     + Z.of_nat (length (feedback (analyzePasswordStrength password)))
     = 5 + (if 12 <=? len password then 1 else 0).
Proof.
  destruct (12 <=? len password) eqn:T.
  - apply Z.leb_le in T.
    strength_cases password; try lia; split; cbn; lia.
  - apply Z.leb_gt in T.
    strength_cases password; try lia; split; cbn; lia.
Qed.

(** X16: a password is Strong only if it has eight characters or more and
    draws at most one piece of advice, and it is Strong whenever it draws
    none. *)
Theorem strong_password (password : jsstring) :
  (strength (analyzePasswordStrength password) = str "Strong" ->
   8 <= len password
   /\ (length (feedback (analyzePasswordStrength password)) <= 1)%nat)
  /\ (feedback (analyzePasswordStrength password) = [] ->
      strength (analyzePasswordStrength password) = str "Strong").
Proof.
  strength_cases password; split; intros Q;
    try discriminate Q; try lia; try (split; [lia|cbn; lia]);
    try reflexivity.
Qed.

Lemma strength_score_sum (password : jsstring) :
  score (analyzePasswordStrength password)
  = Z.b2z (8 <=? len password) + Z.b2z (12 <=? len password)
    + Z.b2z (existsb is_lower password) + Z.b2z (existsb is_upper password)
    + Z.b2z (existsb is_digit password) + Z.b2z (existsb is_special password).
Proof.
  unfold analyzePasswordStrength.
  destruct (8 <=? len password), (12 <=? len password),
    (existsb is_lower password), (existsb is_upper password),
    (existsb is_digit password), (existsb is_special password);
    reflexivity.
Qed.

Lemma strength_feedback_list (password : jsstring) :
  feedback (analyzePasswordStrength password)
  = (if 8 <=? len password then [] else [str "Use at least 8 characters"])
    ++ (if existsb is_lower password then [] else [str "Add lowercase letters"])
    ++ (if existsb is_upper password then [] else [str "Add uppercase letters"])
    ++ (if existsb is_digit password then [] else [str "Add numbers"])
    ++ (if existsb is_special password then []
        else [str "Add special characters"]).
Proof.
  unfold analyzePasswordStrength.
  destruct (8 <=? len password), (12 <=? len password),
    (existsb is_lower password), (existsb is_upper password),
    (existsb is_digit password), (existsb is_special password);
    reflexivity.
Qed.

Lemma b2z_leb_longer (n : Z) (a b : jsstring) :
  Z.b2z (n <=? len a) <= Z.b2z (n <=? len (a ++ b)).
Proof.
  unfold len. rewrite length_app.
  destruct (Z.leb_spec n (Z.of_nat (length a)));
    destruct (Z.leb_spec n (Z.of_nat (length a + length b))); simpl; lia.
Qed.

Lemma b2z_existsb_longer (f : Z -> bool) (a b : jsstring) :
  Z.b2z (existsb f a) <= Z.b2z (existsb f (a ++ b)).
Proof.
  rewrite existsb_app. destruct (existsb f a), (existsb f b); simpl; lia.
Qed.

Lemma advice_longer (met met' : bool) (text : jsstring) :
  Z.b2z met <= Z.b2z met' ->
  incl (if met' then [] else [text]) (if met then [] else [text]).
Proof.
  destruct met, met'; simpl; intros H; try lia;
    (apply incl_refl || apply incl_nil_l).
Qed.

(** X17: more characters never cost anything: appending to a password does
    not lower its score, and adds no advice to its feedback. *)
Theorem strength_monotone (password more : jsstring) :
  score (analyzePasswordStrength password)
  <= score (analyzePasswordStrength (password ++ more))
  /\ incl (feedback (analyzePasswordStrength (password ++ more)))
       (feedback (analyzePasswordStrength password)).
Proof.
  split.
  - rewrite !strength_score_sum.
    pose proof (b2z_leb_longer 8 password more).
    pose proof (b2z_leb_longer 12 password more).
    pose proof (b2z_existsb_longer is_lower password more).
    pose proof (b2z_existsb_longer is_upper password more).
    pose proof (b2z_existsb_longer is_digit password more).
    pose proof (b2z_existsb_longer is_special password more).
    lia.
  - rewrite !strength_feedback_list.
    repeat apply incl_app_app;
      apply advice_longer;
      (apply b2z_leb_longer || apply b2z_existsb_longer).
Qed.


(** ** The subnet calculator *)

Lemma toInt32_mod (z : Z) : toInt32 (Num z) mod 2 ^ 32 = z mod 2 ^ 32.
Proof.
  unfold toInt32. rewrite Zminus_mod_idemp_l. f_equal. lia.
Qed.

Lemma u32_land (x y : Z) :
  Z.land x y mod 2 ^ 32 = Z.land (x mod 2 ^ 32) (y mod 2 ^ 32).
Proof.
  rewrite <- !Z.land_ones by lia. apply Z.bits_inj'. intros n Hn.
  rewrite !Z.land_spec.
  destruct (Z.testbit x n), (Z.testbit y n), (Z.testbit (Z.ones 32) n);
    reflexivity.
Qed.

Lemma u32_lor (x y : Z) :
  Z.lor x y mod 2 ^ 32 = Z.lor (x mod 2 ^ 32) (y mod 2 ^ 32).
Proof.
  rewrite <- !Z.land_ones by lia. apply Z.land_lor_distr_l.
Qed.

Lemma lor_disjoint (hi lo n : Z) :
  0 <= n -> 0 <= lo < 2 ^ n -> Z.lor (hi * 2 ^ n) lo = hi * 2 ^ n + lo.
Proof.
  intros Hn Hl.
  assert (L : Z.land (hi * 2 ^ n) lo = 0).
  { apply Z.bits_inj'. intros m Hm. rewrite Z.land_spec, Z.bits_0.
    destruct (Z.lt_ge_cases m n).
    - rewrite Z.mul_pow2_bits_low by lia. reflexivity.
    - replace lo with (lo mod 2 ^ n) by (apply Z.mod_small; lia).
      rewrite Z.mod_pow2_bits_high by lia. apply andb_false_r. }
  rewrite <- Z.lxor_lor, <- Z.add_nocarry_lxor by exact L. reflexivity.
Qed.

(** The mask of [k] cleared low bits rounds down to a multiple of 2^k. *)
Lemma land_mask (v k : Z) :
  0 <= k <= 32 -> 0 <= v < 2 ^ 32 ->
  Z.land v (2 ^ 32 - 2 ^ k) = v - v mod 2 ^ k.
Proof.
  intros Hk Hv.
  assert (P : 0 < 2 ^ k) by (apply Z.pow_pos_nonneg; lia).
  replace (2 ^ 32 - 2 ^ k) with (Z.ones (32 - k) * 2 ^ k).
  2:{ rewrite Z.ones_equiv, Z.mul_pred_l, <- Z.pow_add_r by lia.
      replace (32 - k + k) with 32 by lia. reflexivity. }
  replace (v - v mod 2 ^ k) with (v / 2 ^ k * 2 ^ k)
    by (pose proof (Z.div_mod v (2 ^ k) ltac:(lia)); lia).
  apply Z.bits_inj'. intros n Hn. rewrite Z.land_spec.
  destruct (Z.lt_ge_cases n k).
  - rewrite !Z.mul_pow2_bits_low by lia. apply andb_false_r.
  - rewrite !Z.mul_pow2_bits by lia.
    rewrite Z.div_pow2_bits by lia. replace (n - k + k) with n by lia.
    rewrite Z.testbit_ones_nonneg by lia.
    destruct (Z.lt_ge_cases n 32).
    + replace (n - k <? 32 - k) with true by (symmetry; apply Z.ltb_lt; lia).
      apply andb_true_r.
    + replace v with (v mod 2 ^ 32) by (apply Z.mod_small; lia).
      rewrite Z.mod_pow2_bits_high by lia. reflexivity.
Qed.

Lemma and_255 (x : Z) : num_and (Num x) (Num 255) = Num (x mod 256).
Proof.
  unfold num_and. change (toInt32 (Num 255)) with (Z.ones 8).
  rewrite Z.land_ones by lia. f_equal.
  rewrite <- (Z.mod_mod_divide (toInt32 (Num x)) (2 ^ 32) (2 ^ 8))
    by (exists (2 ^ 24); reflexivity).
  rewrite toInt32_mod.
  apply Z.mod_mod_divide. exists (2 ^ 24). reflexivity.
Qed.

(** The dotted string of a number is that of its low 32 bits. *)
Lemma dotted_quad (x : Z) : dotted (Num x) = quad (x mod 2 ^ 32).
Proof.
  unfold dotted, quad. do 2 f_equal.
  unfold num_shr_unsigned.
  change (shift_count (Num 24)) with 24.
  change (shift_count (Num 16)) with 16.
  change (shift_count (Num 8)) with 8.
  cbn [toUint32]. rewrite !and_255.
  rewrite (Z.mod_mod_divide x (2 ^ 32) 256) by (exists (2 ^ 24); reflexivity).
  reflexivity.
Qed.

Lemma or_shl_u32 (acc part : Z) (amount : number) :
  exists r : Z,
    num_or (Num acc) (num_shl (Num part) amount) = Num r
    /\ r mod 2 ^ 32
       = Z.lor (acc mod 2 ^ 32) ((part * 2 ^ shift_count amount) mod 2 ^ 32).
Proof.
  eexists. split; [reflexivity|]. unfold num_shl.
  rewrite u32_lor, !toInt32_mod. f_equal.
  rewrite <- Zmult_mod_idemp_l, toInt32_mod, Zmult_mod_idemp_l.
  reflexivity.
Qed.

Lemma octet_bounds (z : Z) : is_octet z = true -> 0 <= z <= 255.
Proof.
  unfold is_octet. rewrite andb_true_iff, !Z.leb_le. trivial.
Qed.

(** The four parts of an address, reduced to one number. *)
Lemma reduce_octets (a b c d : Z) :
  is_octet a = true -> is_octet b = true -> is_octet c = true ->
  is_octet d = true ->
  exists r : Z,
    reduce_parts [Num a; Num b; Num c; Num d] 0 (Num 0) = Num r
    /\ r mod 2 ^ 32 = address_value a b c d.
Proof.
  intros Ha%octet_bounds Hb%octet_bounds Hc%octet_bounds Hd%octet_bounds.
  cbn [reduce_parts].
  destruct (or_shl_u32 0 a (Num (8 * (3 - 0)))) as (r1 & -> & E1).
  destruct (or_shl_u32 r1 b (Num (8 * (3 - (0 + 1))))) as (r2 & -> & E2).
  destruct (or_shl_u32 r2 c (Num (8 * (3 - (0 + 1 + 1))))) as (r3 & -> & E3).
  destruct (or_shl_u32 r3 d (Num (8 * (3 - (0 + 1 + 1 + 1)))))
    as (r4 & -> & E4).
  exists r4. split; [reflexivity|].
  change (shift_count (Num (8 * (3 - 0)))) with 24 in E1.
  change (shift_count (Num (8 * (3 - (0 + 1))))) with 16 in E2.
  change (shift_count (Num (8 * (3 - (0 + 1 + 1))))) with 8 in E3.
  change (shift_count (Num (8 * (3 - (0 + 1 + 1 + 1))))) with 0 in E4.
  rewrite E4, E3, E2, E1. unfold address_value.
  change (0 mod 2 ^ 32) with 0. rewrite Z.lor_0_l.
  rewrite !Z.mod_small by lia.
  rewrite (lor_disjoint a (b * 2 ^ 16) 24) by lia.
  replace (a * 2 ^ 24 + b * 2 ^ 16) with ((a * 2 ^ 8 + b) * 2 ^ 16) by lia.
  rewrite (lor_disjoint _ (c * 2 ^ 8) 16) by lia.
  replace ((a * 2 ^ 8 + b) * 2 ^ 16 + c * 2 ^ 8)
    with ((a * 2 ^ 16 + b * 2 ^ 8 + c) * 2 ^ 8) by lia.
  rewrite Z.pow_0_r, Z.mul_1_r.
  rewrite (lor_disjoint _ d 8) by lia. lia.
Qed.

Lemma address_value_bounds (a b c d : Z) :
  is_octet a = true -> is_octet b = true -> is_octet c = true ->
  is_octet d = true -> 0 <= address_value a b c d < 2 ^ 32.
Proof.
  intros Ha%octet_bounds Hb%octet_bounds Hc%octet_bounds Hd%octet_bounds.
  unfold address_value. lia.
Qed.

Lemma pow2_k_bounds (k : Z) : 0 <= k <= 31 -> 1 <= 2 ^ k <= 2 ^ 31.
Proof.
  intros H. split.
  - pose proof (Z.pow_pos_nonneg 2 k ltac:(lia) ltac:(lia)). lia.
  - apply Z.pow_le_mono_r; lia.
Qed.

(** The mask of the code for a shift count [k]. *)
Lemma subnet_mask_value (amount : number) (k : Z) :
  shift_count amount = k -> 0 <= k <= 31 ->
  num_shr_unsigned (num_shl (Num 4294967295) amount) (Num 0)
  = Num (2 ^ 32 - 2 ^ k).
Proof.
  intros E Hk. pose proof (pow2_k_bounds k Hk) as P.
  unfold num_shr_unsigned, num_shl. rewrite E.
  change (toInt32 (Num 4294967295)) with (-1).
  change (shift_count (Num 0)) with 0. cbn [toUint32].
  rewrite toInt32_mod, Z.pow_0_r, Z.div_1_r. f_equal.
  replace (-1 * 2 ^ k) with (2 ^ 32 - 2 ^ k + -1 * 2 ^ 32) by lia.
  rewrite Z_mod_plus_full. apply Z.mod_small. lia.
Qed.

(** The number that the code subtracts 1 from a shifted 1 to get, modulo
    2^32. *)
Lemma host_bits_value (amount : number) (k : Z) :
  shift_count amount = k -> 0 <= k <= 31 ->
  exists x : Z,
    num_sub (num_shl (Num 1) amount) (Num 1) = Num x
    /\ x mod 2 ^ 32 = 2 ^ k - 1.
Proof.
  intros E Hk. pose proof (pow2_k_bounds k Hk) as P.
  eexists. split; [reflexivity|]. rewrite E.
  change (toInt32 (Num 1)) with 1.
  rewrite <- Zminus_mod_idemp_l, toInt32_mod, Zminus_mod_idemp_l.
  rewrite Z.mul_1_l. apply Z.mod_small. lia.
Qed.

(** What the calculator returns for four octets, in terms of the count [k]
    of its two shifts. *)
Lemma calculateSubnet_octets (ip : jsstring) (a b c d n k : Z) (h : number) :
  ip_parts ip = Some [Num a; Num b; Num c; Num d] ->
  is_octet a = true -> is_octet b = true -> is_octet c = true ->
  is_octet d = true ->
  shift_count (Num (32 - n)) = k -> 0 <= k <= 31 ->
  pow2_minus_2 (Num (32 - n)) = Some h ->
  calculateSubnet ip (Num n)
  = Some (mkSubnet
            (quad (address_value a b c d - address_value a b c d mod 2 ^ k))
            (quad (address_value a b c d - address_value a b c d mod 2 ^ k
                   + 2 ^ k - 1))
            (quad (2 ^ 32 - 2 ^ k)) (Num n) h (getNetworkClass (Num a))).
Proof.
  intros Hp Ha Hb Hc Hd E Hk Hh.
  pose proof (pow2_k_bounds k Hk) as P.
  pose proof (address_value_bounds a b c d Ha Hb Hc Hd) as V.
  set (v := address_value a b c d) in *.
  unfold calculateSubnet. rewrite Hp. cbn [num_sub]. rewrite Hh.
  destruct (reduce_octets a b c d Ha Hb Hc Hd) as (r & -> & Er).
  fold v in Er.
  rewrite (subnet_mask_value _ k E Hk).
  destruct (host_bits_value _ k E Hk) as (x & -> & Ex).
  assert (N : Z.land (toInt32 (Num r)) (toInt32 (Num (2 ^ 32 - 2 ^ k)))
              mod 2 ^ 32 = v - v mod 2 ^ k).
  { rewrite u32_land, !toInt32_mod, Er.
    rewrite (Z.mod_small (2 ^ 32 - 2 ^ k)) by lia.
    apply land_mask; lia. }
  unfold num_and at 1 2, num_or. rewrite !dotted_quad.
  rewrite N, u32_lor, !toInt32_mod, N, Ex.
  rewrite (Z.mod_small (2 ^ 32 - 2 ^ k)) by lia.
  replace (v - v mod 2 ^ k) with (v / 2 ^ k * 2 ^ k) at 2
    by (pose proof (Z.div_mod v (2 ^ k) ltac:(lia)); lia).
  rewrite lor_disjoint by lia.
  replace (v / 2 ^ k * 2 ^ k) with (v - v mod 2 ^ k)
    by (pose proof (Z.div_mod v (2 ^ k) ltac:(lia)); lia).
  do 3 f_equal. lia.
Qed.

(** The block of an address, as the calculator works it out. *)
Lemma subnet_block (ip : jsstring) (a b c d n : Z) :
  ip_parts ip = Some [Num a; Num b; Num c; Num d] ->
  is_octet a = true -> is_octet b = true -> is_octet c = true ->
  is_octet d = true ->
  1 <= n <= 32 ->
  exists net : Z,
    net = address_value a b c d - address_value a b c d mod 2 ^ (32 - n)
    /\ calculateSubnet ip (Num n)
       = Some (mkSubnet (quad net) (quad (net + 2 ^ (32 - n) - 1))
                 (quad (2 ^ 32 - 2 ^ (32 - n))) (Num n)
                 (Num (2 ^ (32 - n) - 2)) (getNetworkClass (Num a)))
    /\ net mod 2 ^ (32 - n) = 0
    /\ 0 <= net <= address_value a b c d
    /\ address_value a b c d <= net + 2 ^ (32 - n) - 1 < 2 ^ 32.
Proof.
  intros Hp Ha Hb Hc Hd Hn.
  pose proof (address_value_bounds a b c d Ha Hb Hc Hd) as V.
  pose proof (pow2_k_bounds (32 - n) ltac:(lia)) as P.
  set (v := address_value a b c d) in *.
  exists (v - v mod 2 ^ (32 - n)). split; [reflexivity|].
  pose proof (Z.mod_pos_bound v (2 ^ (32 - n)) ltac:(lia)) as M.
  pose proof (Z.div_mod v (2 ^ (32 - n)) ltac:(lia)) as D.
  split; [|split; [|split]].
  - apply calculateSubnet_octets; try assumption; try lia.
    + unfold shift_count. cbn [toUint32].
      rewrite (Z.mod_small (32 - n)) by lia. apply Z.mod_small. lia.
    + unfold pow2_minus_2.
      replace ((0 <=? 32 - n) && (32 - n <=? 53)) with true; [reflexivity|].
      symmetry. apply andb_true_iff. rewrite !Z.leb_le. lia.
  - replace (v - v mod 2 ^ (32 - n)) with (v / 2 ^ (32 - n) * 2 ^ (32 - n))
      by lia.
    apply Z.mod_mul. lia.
  - split; [|lia].
    assert (0 <= v / 2 ^ (32 - n)) by (apply Z.div_pos; lia). nia.
  - split; [lia|].
    assert (Q : v / 2 ^ (32 - n) * 2 ^ (32 - n) + 2 ^ (32 - n) <= 2 ^ 32).
    { assert (E : 2 ^ 32 = 2 ^ n * 2 ^ (32 - n)).
      { rewrite <- Z.pow_add_r by lia. f_equal. lia. }
      assert (v / 2 ^ (32 - n) < 2 ^ n).
      { apply Z.div_lt_upper_bound; [lia|]. rewrite Z.mul_comm, <- E. lia. }
      rewrite E. nia. }
    lia.
Qed.

(** X18: for an address of four octets and a prefix length from 1 to 32,
    the calculator reports the address rounded down to a multiple of the
    block size 2^(32 - n) as the network, the last address of that block as
    the broadcast, the mask 2^32 minus the block size, and the block size
    less 2 as the number of hosts; the address lies between network and
    broadcast. *)
Theorem calculateSubnet_block (ip : jsstring) (a b c d n : Z) :
  ip_parts ip = Some [Num a; Num b; Num c; Num d] ->
  is_octet a = true -> is_octet b = true -> is_octet c = true ->
  is_octet d = true ->
  1 <= n <= 32 ->
  exists net : Z,
    net = address_value a b c d - address_value a b c d mod 2 ^ (32 - n)
    /\ calculateSubnet ip (Num n)
       = Some (mkSubnet (quad net) (quad (net + 2 ^ (32 - n) - 1))
                 (quad (2 ^ 32 - 2 ^ (32 - n))) (Num n)
                 (Num (2 ^ (32 - n) - 2)) (getNetworkClass (Num a)))
    /\ net mod 2 ^ (32 - n) = 0
    /\ 0 <= net <= address_value a b c d
    /\ address_value a b c d <= net + 2 ^ (32 - n) - 1 < 2 ^ 32.
Proof.
  intros Hp Ha Hb Hc Hd Hn.
  destruct (subnet_block ip a b c d n Hp Ha Hb Hc Hd Hn)
    as (net & E & R & M & B).
  exists net. repeat split; try assumption; apply B.
Qed.

Lemma calculateSubnet_block_witness :
  exists net : Z,
    net = address_value 192 168 1 77 - address_value 192 168 1 77 mod 2 ^ (32 - 24)
    /\ calculateSubnet (str "192.168.1.77") (Num 24)
       = Some (mkSubnet (quad net) (quad (net + 2 ^ (32 - 24) - 1))
                 (quad (2 ^ 32 - 2 ^ (32 - 24))) (Num 24)
                 (Num (2 ^ (32 - 24) - 2)) (getNetworkClass (Num 192)))
    /\ net mod 2 ^ (32 - 24) = 0
    /\ 0 <= net <= address_value 192 168 1 77
    /\ address_value 192 168 1 77 <= net + 2 ^ (32 - 24) - 1 < 2 ^ 32.
Proof.
  apply (calculateSubnet_block (str "192.168.1.77") 192 168 1 77 24);
    [reflexivity|reflexivity|reflexivity|reflexivity|reflexivity|lia].
Defined.

Example subnet_vector :
  calculateSubnet (str "192.168.1.77") (Num 24)
  = Some (mkSubnet (str "192.168.1.0") (str "192.168.1.255")
            (str "255.255.255.0") (Num 24) (Num 254) (str "C")).
Proof. vm_compute. reflexivity. Qed.

(** X19: the prefix length 0 makes both shifts of the calculator shifts by
    32, which JavaScript takes as shifts by 0: the mask reported is
    255.255.255.255, not 0.0.0.0, and network and broadcast are both the
    address itself, while the number of hosts is 2^32 - 2. *)
Theorem calculateSubnet_prefix_zero (ip : jsstring) (a b c d : Z) :
  ip_parts ip = Some [Num a; Num b; Num c; Num d] ->
  is_octet a = true -> is_octet b = true -> is_octet c = true ->
  is_octet d = true ->
  calculateSubnet ip (Num 0)
  = Some (mkSubnet (quad (address_value a b c d))
            (quad (address_value a b c d)) (str "255.255.255.255") (Num 0)
            (Num 4294967294) (getNetworkClass (Num a))).
Proof.
  intros Hp Ha Hb Hc Hd.
  rewrite (calculateSubnet_octets ip a b c d 0 0 (Num 4294967294));
    try assumption; try reflexivity; try lia.
  rewrite Z.pow_0_r, Z.mod_1_r, Z.sub_0_r.
  replace (address_value a b c d + 1 - 1) with (address_value a b c d) by lia.
  reflexivity.
Qed.

Lemma calculateSubnet_prefix_zero_witness :
  calculateSubnet (str "10.0.0.1") (Num 0)
  = Some (mkSubnet (quad (address_value 10 0 0 1))
            (quad (address_value 10 0 0 1)) (str "255.255.255.255") (Num 0)
            (Num 4294967294) (getNetworkClass (Num 10))).
Proof.
  apply (calculateSubnet_prefix_zero (str "10.0.0.1") 10 0 0 1); reflexivity.
Defined.

(** *** The calculator on its own answers *)

Lemma no_dot_start (c : Z) (s : jsstring) :
  no_dot c = true -> startsWith (c :: s) (str ".") = false.
Proof.
  unfold no_dot. rewrite negb_true_iff, Z.eqb_neq. intros N.
  change (str ".") with [46]. cbn [startsWith].
  replace (46 =? c) with false by (symmetry; apply Z.eqb_neq; lia).
  reflexivity.
Qed.

Lemma split_dot_last (s : jsstring) :
  forall cur : jsstring,
    forallb no_dot s = true -> split_go (str ".") 0 cur s = [rev cur ++ s].
Proof.
  induction s as [|c s IH]; intros cur H.
  - simpl. rewrite app_nil_r. reflexivity.
  - cbn [forallb] in H. apply andb_true_iff in H. destruct H as [Hc Hs].
    rewrite split_go_pass by (apply no_dot_start, Hc).
    rewrite IH by exact Hs. cbn [rev]. rewrite <- app_assoc. reflexivity.
Qed.

Lemma split_dot_until (a : jsstring) :
  forall cur b : jsstring,
    forallb no_dot a = true ->
    split_go (str ".") 0 cur (a ++ str "." ++ b)
    = (rev cur ++ a) :: split_go (str ".") 0 [] b.
Proof.
  induction a as [|c a IH]; intros cur b H.
  - change ([] ++ str "." ++ b) with (46 :: b).
    change (str ".") with [46].
    rewrite split_go_match
      by (cbn [startsWith]; rewrite Z.eqb_refl; apply startsWith_nil).
    rewrite app_nil_r. reflexivity.
  - cbn [forallb] in H. apply andb_true_iff in H. destruct H as [Hc Ha].
    cbn [app]. rewrite split_go_pass by (apply no_dot_start, Hc).
    rewrite IH by exact Ha. cbn [rev]. rewrite <- app_assoc. reflexivity.
Qed.

(** Splitting undoes joining, for four parts without a point. *)
Lemma split_join_four (p1 p2 p3 p4 : jsstring) :
  forallb no_dot p1 = true -> forallb no_dot p2 = true ->
  forallb no_dot p3 = true -> forallb no_dot p4 = true ->
  split (join (str ".") [p1; p2; p3; p4]) (str ".") = [p1; p2; p3; p4].
Proof.
  intros H1 H2 H3 H4. unfold split. cbn [join].
  rewrite !split_dot_until by assumption.
  rewrite split_dot_last by assumption. reflexivity.
Qed.

(** The numeral of an octet has no point, and reads back as the octet. *)
Lemma octet_numeral (z : Z) :
  0 <= z <= 255 ->
  forallb no_dot (number_to_string (Num z)) = true
  /\ Number_of_string (number_to_string (Num z)) = Some (Num z).
Proof.
  intros H.
  assert (I : In z (map Z.of_nat (seq 0 256))).
  { apply in_map_iff. exists (Z.to_nat z). split; [lia|].
    apply in_seq. lia. }
  assert (C : forallb (fun z =>
                forallb no_dot (number_to_string (Num z))
                && match Number_of_string (number_to_string (Num z)) with
                   | Some (Num y) => y =? z
                   | _ => false
                   end) (map Z.of_nat (seq 0 256)) = true)
    by (vm_compute; reflexivity).
  rewrite forallb_forall in C. specialize (C z I).
  apply andb_true_iff in C. destruct C as [C1 C2]. split; [exact C1|].
  destruct (Number_of_string (number_to_string (Num z))) as [[y|]|];
    try discriminate.
  apply Z.eqb_eq in C2. subst y. reflexivity.
Qed.

Lemma octet_mod (x : Z) : 0 <= x mod 256 <= 255.
Proof. pose proof (Z.mod_pos_bound x 256 ltac:(lia)). lia. Qed.

(** The dotted string of a number reads back as its four octets. *)
Lemma ip_parts_quad (u : Z) : ip_parts (quad u) = Some (octets_of u).
Proof.
  unfold ip_parts, quad. cbn [map].
  destruct (octet_numeral _ (octet_mod (u / 2 ^ 24))) as [D1 N1].
  destruct (octet_numeral _ (octet_mod (u / 2 ^ 16))) as [D2 N2].
  destruct (octet_numeral _ (octet_mod (u / 2 ^ 8))) as [D3 N3].
  destruct (octet_numeral _ (octet_mod u)) as [D4 N4].
  rewrite split_join_four by assumption.
  cbn [map]. rewrite N1, N2, N3, N4. reflexivity.
Qed.

Lemma address_of_octets (u : Z) :
  0 <= u < 2 ^ 32 ->
  address_value (u / 2 ^ 24 mod 256) (u / 2 ^ 16 mod 256)
    (u / 2 ^ 8 mod 256) (u mod 256) = u.
Proof.
  intros H. unfold address_value.
  change (2 ^ 24) with 16777216. change (2 ^ 16) with 65536.
  change (2 ^ 8) with 256. change (2 ^ 32) with 4294967296 in H.
  Z.div_mod_to_equations. lia.
Qed.

Lemma is_octet_mod (x : Z) : is_octet (x mod 256) = true.
Proof.
  pose proof (octet_mod x). unfold is_octet.
  apply andb_true_iff. rewrite !Z.leb_le. lia.
Qed.

(** X20: the calculator agrees with itself: given the network that it
    reported for an address and the same prefix length, it reports the same
    network, broadcast, mask and number of hosts again. *)
Theorem calculateSubnet_network_again (ip : jsstring) (a b c d n : Z) :
  ip_parts ip = Some [Num a; Num b; Num c; Num d] ->
  is_octet a = true -> is_octet b = true -> is_octet c = true ->
  is_octet d = true ->
  1 <= n <= 32 ->
  exists r r' : SubnetInfo,
    calculateSubnet ip (Num n) = Some r
    /\ calculateSubnet (network r) (Num n) = Some r'
    /\ network r' = network r /\ broadcast r' = broadcast r
    /\ subnetMask r' = subnetMask r /\ hosts r' = hosts r.
Proof.
  intros Hp Ha Hb Hc Hd Hn.
  destruct (subnet_block ip a b c d n Hp Ha Hb Hc Hd Hn)
    as (net & _ & E & M & B1 & B2).
  pose proof (address_of_octets net ltac:(lia)) as A.
  destruct (subnet_block (quad net) _ _ _ _ n (ip_parts_quad net)
              (is_octet_mod _) (is_octet_mod _) (is_octet_mod _)
              (is_octet_mod _) Hn)
    as (net' & E' & R & _).
  rewrite A, M, Z.sub_0_r in E'. subst net'.
  eexists _, _. split; [exact E|]. split; [exact R|].
  repeat split.
Qed.

Lemma calculateSubnet_network_again_witness :
  exists r r' : SubnetInfo,
    calculateSubnet (str "192.168.1.77") (Num 20) = Some r
    /\ calculateSubnet (network r) (Num 20) = Some r'
    /\ network r' = network r /\ broadcast r' = broadcast r
    /\ subnetMask r' = subnetMask r /\ hosts r' = hosts r.
Proof.
  apply (calculateSubnet_network_again (str "192.168.1.77") 192 168 1 77 20);
    [reflexivity|reflexivity|reflexivity|reflexivity|reflexivity|lia].
Defined.

(** *** Parts that are no numbers *)





(** ** The length of a Juniper plaintext *)

Lemma juniper_while_length (budget : nat) :
  forall data previousChar decrypted plaintext : jsstring,
    juniper_while budget data previousChar decrypted = Done plaintext ->
    exists m : nat,
      length plaintext = (length decrypted + m)%nat
      /\ (length data <= 4 * m)%nat
      /\ (data = [] -> m = 0%nat)
      /\ (data <> [] -> (2 * m < length data + 2)%nat).
Proof.
  induction budget as [|budget IH]; intros data previousChar decrypted plaintext R.
  - destruct data; [|discriminate]. injection R as <-.
    exists 0%nat. repeat split; simpl; lia.
  - rewrite juniper_while_step in R. destruct data as [|c data'].
    + injection R as <-. exists 0%nat. repeat split; simpl; lia.
    + replace (0 <? len (c :: data')) with true in R
        by (symmetry; apply Z.ltb_lt; unfold len; simpl; lia).
      destruct (encoding_row decrypted) as [E B]. rewrite E in R.
      apply IH in R. destruct R as (m & L & U & Z0 & P).
      rewrite length_app in L. cbn [fromCharCode length] in L.
      rewrite substring_from_spec in U, Z0, P by lia.
      rewrite Nat2Z.id in U, Z0, P.
      set (data := c :: data') in *.
      set (k := length (row (length decrypted))) in *.
      pose proof (length_skipn k data) as Ls.
      exists (S m). split; [lia|]. split; [lia|]. split; [discriminate|].
      intros _. destruct (skipn k data) as [|x rest] eqn:Q.
      * rewrite (Z0 eq_refl). assert (0 < length data)%nat by (simpl; lia).
        lia.
      * assert (P' := P ltac:(discriminate)).
        change (length (x :: rest)) with (S (length rest)) in Ls, P'. lia.
Qed.

(** X22: every character of the plaintext stands for two to four characters
    of the data that follow the skip block, the last one possibly for fewer:
    the plaintext is empty exactly when there are no data, has no more than
    half as many characters as the data, rounded up, and no fewer than a
    quarter. *)
Theorem juniper_type9_length (rest : jsstring) :
  forallb no_dollar rest = true ->
  exists plaintext : jsstring,
    decryptJuniperType9 (str "$9$" ++ rest)
    = Done (succeeded (VString plaintext))
    /\ let data :=
         substring_from rest
           (plus_one (get_property JUNIPER_CHARACTER_KEYS
                        (charAt rest (Num 0)))) in
       (length data <= 4 * length plaintext)%nat
       /\ (data = [] -> plaintext = [])
       /\ (data <> [] -> (2 * length plaintext < length data + 2)%nat).
Proof.
  intros H. unfold decryptJuniperType9. rewrite startsWith_app.
  rewrite (juniper_piece rest rest [])
    by (rewrite split_go_no_dollar by exact H; reflexivity).
  cbn [negb].
  set (data := substring_from rest _).
  destruct (juniper_while_total (length data) data (charAt rest (Num 0)) []
              (Nat.le_refl _)) as [plaintext R].
  rewrite R. exists plaintext. split; [reflexivity|].
  apply juniper_while_length in R. destruct R as (m & L & U & Z0 & P).
  cbn [length Nat.add] in L. subst m. cbv zeta. split; [exact U|].
  split; [|exact P].
  intros Q. apply Z0 in Q. destruct plaintext; [reflexivity|discriminate].
Qed.

Lemma juniper_type9_length_witness :
  exists plaintext : jsstring,
    decryptJuniperType9 (str "$9$" ++ str "ikqfQz")
    = Done (succeeded (VString plaintext))
    /\ let data :=
         substring_from (str "ikqfQz")
           (plus_one (get_property JUNIPER_CHARACTER_KEYS
                        (charAt (str "ikqfQz") (Num 0)))) in
       (length data <= 4 * length plaintext)%nat
       /\ (data = [] -> plaintext = [])
       /\ (data <> [] -> (2 * length plaintext < length data + 2)%nat).
Proof.
  apply (juniper_type9_length (str "ikqfQz")). reflexivity.
Defined.

(** ** The length of a Cisco plaintext *)

Lemma cisco_pairs_length (salt : number) (n : nat) :
  forall (s : jsstring) (i : Z),
    (length s <= n)%nat ->
    length (cisco_pairs salt i s) = ((length s + 1) / 2)%nat.
Proof.
  induction n as [|n IH]; intros s i L.
  - destruct s; [reflexivity|simpl in L; lia].
  - destruct s as [|a [|b rest]]; [reflexivity|reflexivity|].
    cbn [cisco_pairs]. rewrite length_app, IH by (simpl in L; lia).
    cbn [cisco_char fromCharCode length].
    replace (S (S (length rest)) + 1)%nat with (length rest + 1 + 1 * 2)%nat
      by lia.
    rewrite Nat.div_add by lia. lia.
Qed.

(** X23: past the gate every text is decoded, an odd number of hex digits
    too: the plaintext has one character for each pair of digits after the
    first two, and one more for a last digit left without its pair. *)
Theorem cisco_type7_length (encrypted : jsstring) :
  hex_test encrypted = true ->
  exists plaintext : jsstring,
    decryptCiscoType7 encrypted = Done (succeeded (VString plaintext))
    /\ length plaintext = ((length encrypted - 1) / 2)%nat.
Proof.
  intros H. rewrite decryptCiscoType7_pairs by exact H.
  eexists. split; [reflexivity|].
  rewrite (cisco_pairs_length _ (length (skipn 2 encrypted))) by lia.
  rewrite length_skipn.
  destruct encrypted as [|a [|b rest]]; [discriminate|reflexivity|].
  cbn [length]. f_equal. lia.
Qed.

Lemma cisco_type7_length_witness :
  exists plaintext : jsstring,
    decryptCiscoType7 (str "094F471A1") = Done (succeeded (VString plaintext))
    /\ length plaintext = ((length (str "094F471A1") - 1) / 2)%nat.
Proof.
  apply (cisco_type7_length (str "094F471A1")). reflexivity.
Defined.
